(** * lazyk8s: the Kubernetes client wrapper and the Textual application

    A shallow embedding of [lazyk8s/k8s_client.py] and [lazyk8s/gui.py], and
    the properties of the selection state, the status line, the log panel and
    the namespace search that the specification states about them.

    Conventions of the embedding.
    - A Python [str] is a [string]; the text handled is ASCII, so
      [str.upper] and [str.lower] change the letters a-z and A-Z only.
    - A Python [int] is a [Z]; [Optional[T]] is [option T].
    - The objects of the Kubernetes client library ([V1Pod], ...) are records
      holding the attributes the program reads; an attribute the program
      reads through without a test ([pod.status], [pod.metadata.name],
      [cs.state]) is always there.
    - The cluster is reached through [CoreV1Api]; a call either returns or
      raises [ApiException], the exception class the program's handlers name.
    - Methods that log, assign attributes or may raise are computations in a
      state-and-exception monad over the object they belong to. *)

From Stdlib Require Import ZArith List String Ascii Bool Lia.
From Stdlib Require Import Numbers.DecimalString.
From Stdlib Require Import Sorting.Permutation.
Import ListNotations.

Open Scope list_scope.
Open Scope string_scope.

(** ** Python built-ins used by the program *)

Module Py.

(** The line feed, ["\n"] in the source. *)
Definition LF : ascii := "010"%char.
Definition NL : string := String LF "".

(** Truth value of a string: the empty string is false. *)
Definition truthy (s : string) : bool :=
  match s with
  | "" => false
  | String _ _ => true
  end.

(** Truth value of an optional string ([None] and [""] are false). *)
Definition truthy_opt (o : option string) : bool :=
  match o with
  | None => false
  | Some s => truthy s
  end.

(** Truth value of an optional list ([None] and [[]] are false). *)
Definition truthy_list {A : Type} (o : option (list A)) : bool :=
  match o with
  | None | Some [] => false
  | Some (_ :: _) => true
  end.

(** [x or y] on an optional string and a string. *)
Definition or_else (o : option string) (d : string) : string :=
  match o with
  | Some s => if truthy s then s else d
  | None => d
  end.

Definition is_lower (c : ascii) : bool :=
  let n := N_of_ascii c in ((97 <=? n) && (n <=? 122))%N.

Definition is_upper (c : ascii) : bool :=
  let n := N_of_ascii c in ((65 <=? n) && (n <=? 90))%N.

Definition upper_char (c : ascii) : ascii :=
  if is_lower c then ascii_of_N (N_of_ascii c - 32) else c.

Definition lower_char (c : ascii) : ascii :=
  if is_upper c then ascii_of_N (N_of_ascii c + 32) else c.

(** A string method that maps each character on its own. *)
Fixpoint map_chars (f : ascii -> ascii) (s : string) : string :=
  match s with
  | "" => ""
  | String c s' => String (f c) (map_chars f s')
  end.

(** [s.upper()] and [s.lower()]. *)
Definition upper : string -> string := map_chars upper_char.
Definition lower : string -> string := map_chars lower_char.

(** [sub in s]: [sub] occurs in [s] as a contiguous substring. *)
Fixpoint contains (sub s : string) : bool :=
  prefix sub s ||
  match s with
  | "" => false
  | String _ s' => contains sub s'
  end.

(** [s.split(sep)] for a one-character separator. *)
Fixpoint split (sep : ascii) (s : string) : list string :=
  match s with
  | "" => [""]
  | String c s' =>
      if Ascii.eqb c sep then "" :: split sep s'
      else match split sep s' with
           | [] => [String c ""]
           | h :: t => String c h :: t
           end
  end.

(** [sep.join(parts)]. *)
Fixpoint join (sep : string) (parts : list string) : string :=
  match parts with
  | [] => ""
  | [p] => p
  | p :: rest => p ++ sep ++ join sep rest
  end.

(** [str(n)] for an integer. *)
Definition str_int (n : Z) : string :=
  NilEmpty.string_of_int (Z.to_int n).

(** [str(o)] for an optional string, as an f-string prints it. *)
Definition str_opt (o : option string) : string :=
  match o with
  | None => "None"
  | Some s => s
  end.

(** [any(p(x) for x in l)]. *)
Definition any {A : Type} (p : A -> bool) (l : list A) : bool := existsb p l.

End Py.

(** ** The objects of the Kubernetes client library *)

Record V1ObjectMeta := { name : string }.

Record V1Container := { container_name : string; image : string }.

Record V1PodSpec := {
  node_name : option string;
  containers : list V1Container
}.

Record V1ContainerStateWaiting := { waiting_reason : option string }.
Record V1ContainerStateTerminated := { terminated_reason : option string }.

Record V1ContainerState := {
  waiting : option V1ContainerStateWaiting;
  terminated : option V1ContainerStateTerminated
}.

Record V1ContainerStatus := {
  status_name : string;
  ready : bool;
  restart_count : Z;
  state : V1ContainerState
}.

Record V1PodStatus := {
  phase : option string;
  reason : option string;
  pod_ip : option string;
  container_statuses : option (list V1ContainerStatus)
}.

Record V1Pod := {
  metadata : V1ObjectMeta;
  spec : V1PodSpec;
  status : V1PodStatus
}.

Record V1Namespace := { ns_metadata : V1ObjectMeta }.

(** ** The cluster API *)

(** An [ApiException] is kept as the text [str(e)] prints. *)
Record ApiException := { exc_text : string }.

Inductive outcome (A : Type) : Type :=
| Returned (a : A)
| Raised (e : ApiException).
Arguments Returned {A} a.
Arguments Raised {A} e.

(** The keyword arguments of [read_namespaced_pod_log]; an argument the
    caller does not pass is [None]. *)
Record LogRequest := {
  req_name : string;
  req_namespace : string;
  req_container : string;
  req_follow : option bool;
  req_tail_lines : option Z
}.

Record CoreV1Api := {
  list_namespace : outcome (list V1Namespace);
  list_namespaced_pod : string -> outcome (list V1Pod);
  read_namespaced_pod : string -> string -> outcome V1Pod;
  read_namespaced_pod_log : LogRequest -> outcome string;
  (** [config.list_kube_config_contexts()]: the cluster of the active context. *)
  active_context_cluster : outcome (option string);
  (** [client.VersionApi().get_code().git_version]. *)
  git_version : outcome string
}.

(** ** State and exceptions *)

Module StateExc.

Definition M (S A : Type) : Type := S -> outcome A * S.

Definition ret {S A} (a : A) : M S A := fun s => (Returned a, s).

Definition bind {S A B} (m : M S A) (k : A -> M S B) : M S B :=
  fun s =>
    match m s with
    | (Returned a, s') => k a s'
    | (Raised e, s') => (Raised e, s')
    end.

Definition raise {S A} (e : ApiException) : M S A := fun s => (Raised e, s).

(** [try: body except ApiException as e: handler(e)]. *)
Definition try_except {S A} (body : M S A) (handler : ApiException -> M S A) : M S A :=
  fun s =>
    match body s with
    | (Returned a, s') => (Returned a, s')
    | (Raised e, s') => handler e s'
    end.

Definition get {S} : M S S := fun s => (Returned s, s).
Definition gets {S A} (f : S -> A) : M S A := fun s => (Returned (f s), s).
Definition modify {S} (f : S -> S) : M S unit := fun s => (Returned tt, f s).

(** A call of the cluster API: its outcome, the state untouched. *)
Definition call {S A} (f : S -> outcome A) : M S A := fun s => (f s, s).

(** Run a computation over a part [T] of the state [S]. *)
Definition zoom {S T A} (proj : S -> T) (upd : T -> S -> S) (m : M T A) : M S A :=
  fun s => let (r, t') := m (proj s) in (r, upd t' s).

(** [for x in l: body(x)]. *)
Fixpoint for_each {S A} (l : list A) (body : A -> M S unit) : M S unit :=
  match l with
  | [] => ret tt
  | x :: rest => bind (body x) (fun _ => for_each rest body)
  end.

Definition exec {S A} (m : M S A) (s : S) : S := snd (m s).
Definition eval {S A} (m : M S A) (s : S) : outcome A := fst (m s).

Module Notations.
Notation "x <- m ;; k" := (bind m (fun x => k))
  (at level 61, m at next level, right associativity).
Notation "m ;; k" := (bind m (fun _ => k))
  (at level 61, right associativity).
End Notations.

End StateExc.

Import StateExc StateExc.Notations.

(** ** [lazyk8s/k8s_client.py] *)

Record K8sClient := {
  namespace : string;
  _namespace_list : list string;
  core_v1 : CoreV1Api;
  (** the records passed to [self.logger.error], oldest first *)
  logger : list string
}.

Definition K8s := M K8sClient.

Definition logger_error (msg : string) : K8s unit :=
  modify (fun self =>
    {| namespace := namespace self; _namespace_list := _namespace_list self;
       core_v1 := core_v1 self; logger := (logger self ++ [msg])%list |}).

Definition assign_namespace (ns : string) : K8s unit :=
  modify (fun self =>
    {| namespace := ns; _namespace_list := _namespace_list self;
       core_v1 := core_v1 self; logger := logger self |}).

Definition assign_namespace_list (l : list string) : K8s unit :=
  modify (fun self =>
    {| namespace := namespace self; _namespace_list := l;
       core_v1 := core_v1 self; logger := logger self |}).

Definition _refresh_namespaces : K8s unit :=
  try_except
    (namespaces <- call (fun self => list_namespace (core_v1 self)) ;;
     assign_namespace_list (map (fun ns => name (ns_metadata ns)) namespaces))
    (fun e =>
       logger_error ("Failed to list namespaces: " ++ exc_text e) ;;
       raise e).

Definition get_namespaces : K8s (list string) := gets _namespace_list.

Definition get_current_namespace : K8s string := gets namespace.

Definition set_namespace (ns : string) : K8s unit := assign_namespace ns.

Definition get_pods : K8s (list V1Pod) :=
  try_except
    (call (fun self => list_namespaced_pod (core_v1 self) (namespace self)))
    (fun e =>
       logger_error ("Failed to list pods: " ++ exc_text e) ;;
       ret []).

Definition get_pod_logs (pod_name container : string) (lines : Z) : K8s string :=
  try_except
    (call (fun self =>
       read_namespaced_pod_log (core_v1 self)
         {| req_name := pod_name; req_namespace := namespace self;
            req_container := container; req_follow := None;
            req_tail_lines := Some lines |}))
    (fun e =>
       logger_error ("Failed to get logs for " ++ pod_name ++ "/" ++ container
                     ++ ": " ++ exc_text e) ;;
       ret ("Error: " ++ exc_text e)).

(** The default of the [lines] parameter of [get_pod_logs]. *)
Definition default_lines : Z := 100.

Definition stream_pod_logs (pod_name container : string) : K8s string :=
  try_except
    (call (fun self =>
       read_namespaced_pod_log (core_v1 self)
         {| req_name := pod_name; req_namespace := namespace self;
            req_container := container; req_follow := Some false;
            req_tail_lines := Some 100%Z |}))
    (fun e =>
       logger_error ("Failed to stream logs: " ++ exc_text e) ;;
       ret ("Error: " ++ exc_text e)).

(** The loop of [get_pod_status] over the container statuses: the running
    values of [phase], [ready] and [restarts]. *)
Record StatusAcc := {
  acc_phase : option string;
  acc_ready : Z;
  acc_restarts : Z
}.

Definition status_step (acc : StatusAcc) (cs : V1ContainerStatus) : StatusAcc :=
  let restarts := (acc_restarts acc + restart_count cs)%Z in
  let ready_n := if ready cs then (acc_ready acc + 1)%Z else acc_ready acc in
  let ph :=
    match waiting (state cs) with
    | Some w =>
        if Py.truthy_opt (waiting_reason w) then waiting_reason w
        else match terminated (state cs) with
             | Some t =>
                 if Py.truthy_opt (terminated_reason t) then terminated_reason t
                 else acc_phase acc
             | None => acc_phase acc
             end
    | None =>
        match terminated (state cs) with
        | Some t =>
            if Py.truthy_opt (terminated_reason t) then terminated_reason t
            else acc_phase acc
        | None => acc_phase acc
        end
    end in
  {| acc_phase := ph; acc_ready := ready_n; acc_restarts := restarts |}.

(** The values [get_pod_status] formats. *)
Record StatusSummary := {
  sum_phase : option string;
  sum_ready : Z;
  sum_total : Z;
  sum_restarts : Z
}.

Definition pod_status_summary (pod : V1Pod) : StatusSummary :=
  let phase0 := phase (status pod) in
  let phase1 := if Py.truthy_opt (reason (status pod)) then reason (status pod) else phase0 in
  let total :=
    if Py.truthy_list (container_statuses (status pod))
    then match container_statuses (status pod) with
         | Some l => Z.of_nat (List.length l)
         | None => 0%Z
         end
    else 0%Z in
  let acc0 := {| acc_phase := phase1; acc_ready := 0; acc_restarts := 0 |} in
  let acc :=
    if Py.truthy_list (container_statuses (status pod))
    then match container_statuses (status pod) with
         | Some l => fold_left status_step l acc0
         | None => acc0
         end
    else acc0 in
  {| sum_phase := acc_phase acc; sum_ready := acc_ready acc;
     sum_total := total; sum_restarts := acc_restarts acc |}.

Definition format_status (s : StatusSummary) : string :=
  Py.str_opt (sum_phase s) ++ " (" ++ Py.str_int (sum_ready s) ++ "/"
  ++ Py.str_int (sum_total s) ++ ") Restarts:" ++ Py.str_int (sum_restarts s).

Definition get_pod_status (pod : V1Pod) : string :=
  format_status (pod_status_summary pod).

Definition get_container_names (pod : V1Pod) : list string :=
  map container_name (containers (spec pod)).

Definition fuzzy_search_namespaces (search : string) : K8s (list string) :=
  self <- get ;;
  if negb (Py.truthy search) then ret (_namespace_list self)
  else
    let search_lower := Py.lower search in
    ret (filter (fun ns => Py.contains search_lower (Py.lower ns)) (_namespace_list self)).

Definition get_cluster_info : K8s (string * string) :=
  try_except
    (active <- call (fun self => active_context_cluster (core_v1 self)) ;;
     let host := match active with Some cluster_name => cluster_name | None => "unknown" end in
     version <- call (fun self => git_version (core_v1 self)) ;;
     ret (host, version))
    (fun e =>
       logger_error ("Failed to get cluster info: " ++ exc_text e) ;;
       ret ("unknown", "unknown")).

(** ** [lazyk8s/gui.py] *)

(** The items of the two list views. [PodItem] and [ContainerItem] keep the
    object they stand for and the text of their label. *)
Inductive ListItem :=
| PodItem (pod : V1Pod) (label : string)
| ContainerItem (container_name : string) (label : string)
| PlainItem.

(** [PodItem.__init__]: the coloured bullet and the pod's name. *)
Definition pod_icon (pod : V1Pod) : string :=
  let phase := phase (status pod) in
  let statuses := match container_statuses (status pod) with Some l => l | None => [] end in
  match phase with
  | Some "Running" =>
      let ready_n := List.length (filter ready statuses) in
      let total := List.length statuses in
      if Nat.eqb ready_n total && Nat.ltb 0 total then "[green]●[/]" else "[yellow]●[/]"
  | Some "Pending" => "[yellow]●[/]"
  | _ => "[red]●[/]"
  end.

Definition new_PodItem (pod : V1Pod) : ListItem :=
  PodItem pod (pod_icon pod ++ " " ++ name (metadata pod)).

Definition new_ContainerItem (container_name : string) : ListItem :=
  ContainerItem container_name ("  " ++ container_name).

(** [ListView.Selected]: the list view's id and the item chosen. *)
Record Selected := {
  list_view_id : string;
  item : ListItem
}.

(** What happens on the terminal while the interface is suspended. *)
Inductive ConsoleEvent :=
| Print (text : string)
| Run (argv : list string)
| Input (prompt : string).

(** [subprocess.run(argv)] either completes with a return code or raises. *)
Inductive RunOutcome :=
| Completed (returncode : Z)
| RunFailed.

Record LazyK8sApp := {
  k8s_client : K8sClient;
  pods : list V1Pod;
  selected_pod : option V1Pod;
  selected_container : option string;
  current_namespace : string;
  (** the widgets: what each one shows *)
  status_bar : string;
  pods_list : list ListItem;
  containers_list : list ListItem;
  info_panel : string;
  logs_panel : list string;
  console : list ConsoleEvent
}.

Definition App := M LazyK8sApp.

Definition with_k8s_client (c : K8sClient) (a : LazyK8sApp) : LazyK8sApp :=
  {| k8s_client := c; pods := pods a; selected_pod := selected_pod a;
     selected_container := selected_container a;
     current_namespace := current_namespace a; status_bar := status_bar a;
     pods_list := pods_list a; containers_list := containers_list a;
     info_panel := info_panel a; logs_panel := logs_panel a; console := console a |}.

Definition with_pods (l : list V1Pod) (a : LazyK8sApp) : LazyK8sApp :=
  {| k8s_client := k8s_client a; pods := l; selected_pod := selected_pod a;
     selected_container := selected_container a;
     current_namespace := current_namespace a; status_bar := status_bar a;
     pods_list := pods_list a; containers_list := containers_list a;
     info_panel := info_panel a; logs_panel := logs_panel a; console := console a |}.

Definition with_selected_pod (p : option V1Pod) (a : LazyK8sApp) : LazyK8sApp :=
  {| k8s_client := k8s_client a; pods := pods a; selected_pod := p;
     selected_container := selected_container a;
     current_namespace := current_namespace a; status_bar := status_bar a;
     pods_list := pods_list a; containers_list := containers_list a;
     info_panel := info_panel a; logs_panel := logs_panel a; console := console a |}.

Definition with_selected_container (c : option string) (a : LazyK8sApp) : LazyK8sApp :=
  {| k8s_client := k8s_client a; pods := pods a; selected_pod := selected_pod a;
     selected_container := c;
     current_namespace := current_namespace a; status_bar := status_bar a;
     pods_list := pods_list a; containers_list := containers_list a;
     info_panel := info_panel a; logs_panel := logs_panel a; console := console a |}.

Definition with_status_bar (s : string) (a : LazyK8sApp) : LazyK8sApp :=
  {| k8s_client := k8s_client a; pods := pods a; selected_pod := selected_pod a;
     selected_container := selected_container a;
     current_namespace := current_namespace a; status_bar := s;
     pods_list := pods_list a; containers_list := containers_list a;
     info_panel := info_panel a; logs_panel := logs_panel a; console := console a |}.

Definition with_pods_list (l : list ListItem) (a : LazyK8sApp) : LazyK8sApp :=
  {| k8s_client := k8s_client a; pods := pods a; selected_pod := selected_pod a;
     selected_container := selected_container a;
     current_namespace := current_namespace a; status_bar := status_bar a;
     pods_list := l; containers_list := containers_list a;
     info_panel := info_panel a; logs_panel := logs_panel a; console := console a |}.

Definition with_containers_list (l : list ListItem) (a : LazyK8sApp) : LazyK8sApp :=
  {| k8s_client := k8s_client a; pods := pods a; selected_pod := selected_pod a;
     selected_container := selected_container a;
     current_namespace := current_namespace a; status_bar := status_bar a;
     pods_list := pods_list a; containers_list := l;
     info_panel := info_panel a; logs_panel := logs_panel a; console := console a |}.

Definition with_info_panel (s : string) (a : LazyK8sApp) : LazyK8sApp :=
  {| k8s_client := k8s_client a; pods := pods a; selected_pod := selected_pod a;
     selected_container := selected_container a;
     current_namespace := current_namespace a; status_bar := status_bar a;
     pods_list := pods_list a; containers_list := containers_list a;
     info_panel := s; logs_panel := logs_panel a; console := console a |}.

Definition with_logs_panel (l : list string) (a : LazyK8sApp) : LazyK8sApp :=
  {| k8s_client := k8s_client a; pods := pods a; selected_pod := selected_pod a;
     selected_container := selected_container a;
     current_namespace := current_namespace a; status_bar := status_bar a;
     pods_list := pods_list a; containers_list := containers_list a;
     info_panel := info_panel a; logs_panel := l; console := console a |}.

Definition with_console (l : list ConsoleEvent) (a : LazyK8sApp) : LazyK8sApp :=
  {| k8s_client := k8s_client a; pods := pods a; selected_pod := selected_pod a;
     selected_container := selected_container a;
     current_namespace := current_namespace a; status_bar := status_bar a;
     pods_list := pods_list a; containers_list := containers_list a;
     info_panel := info_panel a; logs_panel := logs_panel a; console := l |}.

(** A method of [self.k8s_client] called from the application. *)
Definition client {A} (m : K8s A) : App A := zoom k8s_client with_k8s_client m.

(** Widget operations. *)
Definition pods_list_clear : App unit := modify (with_pods_list []).
Definition pods_list_append (i : ListItem) : App unit :=
  modify (fun a => with_pods_list (pods_list a ++ [i])%list a).
Definition containers_list_clear : App unit := modify (with_containers_list []).
Definition containers_list_append (i : ListItem) : App unit :=
  modify (fun a => with_containers_list (containers_list a ++ [i])%list a).
Definition info_panel_update (s : string) : App unit := modify (with_info_panel s).
Definition logs_panel_clear : App unit := modify (with_logs_panel []).
Definition logs_panel_write (s : string) : App unit :=
  modify (fun a => with_logs_panel (logs_panel a ++ [s])%list a).
Definition status_bar_update (s : string) : App unit := modify (with_status_bar s).
Definition console_event (e : ConsoleEvent) : App unit :=
  modify (fun a => with_console (console a ++ [e])%list a).

Definition refresh_status_bar : App unit :=
  hv <- client get_cluster_info ;;
  namespace <- client get_current_namespace ;;
  status_bar_update ("[b]lazyk8s[/] [dim]" ++ snd hv ++ "[/]  [cyan]●[/] " ++ namespace).

Definition refresh_pods : App unit :=
  new_pods <- client get_pods ;;
  modify (with_pods new_pods) ;;
  pods_list_clear ;;
  for_each new_pods (fun pod => pods_list_append (new_PodItem pod)).

Definition refresh_containers : App unit :=
  containers_list_clear ;;
  self <- get ;;
  match selected_pod self with
  | Some pod =>
      for_each (get_container_names pod)
        (fun container => containers_list_append (new_ContainerItem container))
  | None => ret tt
  end.

Definition show_pod_info : App unit :=
  self <- get ;;
  match selected_pod self with
  | None => info_panel_update "[dim]no pod selected[/]"
  | Some pod =>
      let info_lines :=
        [ "[b]" ++ name (metadata pod) ++ "[/]";
          "[dim]node:[/] " ++ Py.or_else (node_name (spec pod)) "n/a"
            ++ "  [dim]ip:[/] " ++ Py.or_else (pod_ip (status pod)) "n/a";
          "" ] in
      let info_lines :=
        fold_left
          (fun acc container =>
             app acc ["[cyan]●[/] " ++ container_name container;
                      "  [dim]" ++ image container ++ "[/]"])
          (containers (spec pod)) info_lines in
      info_panel_update (Py.join Py.NL info_lines)
  end.

(** The body of the loop of [show_pod_logs] for one line. *)
Definition write_log_line (line : string) : App unit :=
  if Py.truthy line then
    if Py.any (fun level => Py.contains level (Py.upper line)) ["ERROR"; "FATAL"]
    then logs_panel_write ("[red]" ++ line ++ "[/]")
    else if Py.any (fun level => Py.contains level (Py.upper line)) ["WARN"; "WARNING"]
    then logs_panel_write ("[yellow]" ++ line ++ "[/]")
    else logs_panel_write line
  else ret tt.

(** The loop of [show_pod_logs] that writes the retrieved text. *)
Definition write_logs (logs : string) : App unit :=
  for_each (Py.split Py.LF logs) write_log_line.

Definition show_pod_logs : App unit :=
  logs_panel_clear ;;
  self <- get ;;
  match selected_pod self with
  | None => logs_panel_write "[dim]no pod selected[/]"
  | Some pod =>
      match get_container_names pod with
      | [] => logs_panel_write "[dim]no containers found[/]"
      | first :: _ =>
          let container := Py.or_else (selected_container self) first in
          logs <- client (get_pod_logs (name (metadata pod)) container 100) ;;
          write_logs logs
      end
  end.

Definition on_list_view_selected (event : Selected) : App unit :=
  if String.eqb (list_view_id event) "pods-list" then
    match item event with
    | PodItem pod _ =>
        modify (with_selected_pod (Some pod)) ;;
        modify (with_selected_container None) ;;
        refresh_containers ;;
        show_pod_info ;;
        show_pod_logs
    | _ => ret tt
    end
  else if String.eqb (list_view_id event) "containers-list" then
    match item event with
    | ContainerItem container_name _ =>
        modify (with_selected_container (Some container_name)) ;;
        show_pod_logs
    | _ => ret tt
    end
  else ret tt.

Definition action_refresh : App unit :=
  refresh_pods ;;
  self <- get ;;
  match selected_pod self with
  | Some _ => refresh_containers ;; show_pod_info ;; show_pod_logs
  | None => ret tt
  end.

Definition action_change_namespace : App unit := refresh_status_bar.

Definition action_view_logs : App unit :=
  self <- get ;;
  match selected_pod self with
  | Some _ => show_pod_logs
  | None => ret tt
  end.

(** The candidate shells of [action_open_shell], in the order tried. *)
Definition shells : list string := ["/bin/bash"; "/bin/sh"; "/bin/ash"].

Definition shell_argv (namespace pod_name container shell : string) : list string :=
  ["kubectl"; "exec"; "-it"; "-n"; namespace; pod_name; "-c"; container; "--"; shell].

Section OpenShell.

(** The operating system as [subprocess.run] sees it. *)
Variable subprocess_run : list string -> RunOutcome.

(** [for shell in candidates: try: ... break ... except Exception: continue]. *)
Fixpoint try_shells (namespace pod_name container : string) (candidates : list string)
  : App unit :=
  match candidates with
  | [] => ret tt
  | shell :: rest =>
      let argv := shell_argv namespace pod_name container shell in
      console_event (Run argv) ;;
      match subprocess_run argv with
      | Completed returncode =>
          if (returncode =? 0)%Z then ret tt
          else try_shells namespace pod_name container rest
      | RunFailed => try_shells namespace pod_name container rest
      end
  end.

Definition action_open_shell : App unit :=
  self <- get ;;
  match selected_pod self with
  | None => ret tt
  | Some pod =>
      match get_container_names pod with
      | [] => ret tt
      | first :: _ =>
          let container := Py.or_else (selected_container self) first in
          namespace <- client get_current_namespace ;;
          let pod_name := name (metadata pod) in
          console_event (Print (Py.NL ++ "● Opening shell: " ++ namespace ++ "/"
                                ++ pod_name ++ "/" ++ container ++ Py.NL)) ;;
          try_shells namespace pod_name container shells ;;
          console_event (Input (Py.NL ++ "Press Enter to return to lazyk8s...")) ;;
          refresh_pods ;;
          self' <- get ;;
          match selected_pod self' with
          | Some _ => show_pod_info ;; show_pod_logs
          | None => ret tt
          end
      end
  end.

End OpenShell.

Definition on_mount : App unit :=
  refresh_status_bar ;;
  refresh_pods.

(** ** The application as a state machine *)

(** What the user and the framework make the application do. *)
Inductive Action :=
| Mount
| Refresh
| ChangeNamespace
| ViewLogs
| OpenShell (subprocess_run : list string -> RunOutcome)
| Select (event : Selected).

Definition perform (act : Action) : App unit :=
  match act with
  | Mount => on_mount
  | Refresh => action_refresh
  | ChangeNamespace => action_change_namespace
  | ViewLogs => action_view_logs
  | OpenShell run => action_open_shell run
  | Select event => on_list_view_selected event
  end.

(** A list view reports the selection of an item it shows. *)
Definition offered (a : LazyK8sApp) (act : Action) : Prop :=
  match act with
  | Select event =>
      (list_view_id event = "pods-list" /\ In (item event) (pods_list a))
      \/ (list_view_id event = "containers-list" /\ In (item event) (containers_list a))
  | _ => True
  end.

(** ** The specification's vocabulary *)

(** The container statuses a pod reports, none when the attribute is absent. *)
Definition statuses_of (pod : V1Pod) : list V1ContainerStatus :=
  match container_statuses (status pod) with
  | Some l => l
  | None => []
  end.

(** The reason a container status carries: a non-empty waiting reason,
    otherwise a non-empty terminated reason. *)
Definition carried_reason (cs : V1ContainerStatus) : option string :=
  match waiting (state cs) with
  | Some {| waiting_reason := Some (String c r) |} => Some (String c r)
  | _ =>
      match terminated (state cs) with
      | Some {| terminated_reason := Some (String c r) |} => Some (String c r)
      | _ => None
      end
  end.

Fixpoint carried_reasons (l : list V1ContainerStatus) : list string :=
  match l with
  | [] => []
  | cs :: rest =>
      match carried_reason cs with
      | Some r => r :: carried_reasons rest
      | None => carried_reasons rest
      end
  end.

(** The number of ready entries and the sum of the restart counts. *)
Definition ready_count (l : list V1ContainerStatus) : Z :=
  Z.of_nat (List.length (filter ready l)).

Definition restart_sum (l : list V1ContainerStatus) : Z :=
  fold_right Z.add 0%Z (map restart_count l).

(** The selection: the selected pod's identifier and the selected container. *)
Definition selection (a : LazyK8sApp) : option string * option string :=
  (option_map (fun pod => name (metadata pod)) (selected_pod a), selected_container a).

(** The cascade invariant: no container is selected while no pod is. *)
Definition cascade_holds (a : LazyK8sApp) : bool :=
  match selected_pod a, selected_container a with
  | None, Some _ => false
  | _, _ => true
  end.

(** What every state the application goes through satisfies: while no pod
    is selected, no container is selected and the container list shows
    nothing. *)
Definition selection_guarded (a : LazyK8sApp) : Prop :=
  selected_pod a = None -> selected_container a = None /\ containers_list a = [].

(** [id] is the identifier of one of the pods of [l]. *)
Definition pod_listed (id : string) (l : list V1Pod) : bool :=
  existsb (fun p => String.eqb (name (metadata p)) id) l.

(** A computation leaves the attribute [f] of the application as it was. *)
Definition keeps {T A : Type} (f : LazyK8sApp -> T) (m : App A) : Prop :=
  forall a, f (exec m a) = f a.

(** A computation returns, whatever the state: it raises nothing. *)
Definition returns {S A : Type} (m : M S A) : Prop :=
  forall s, exists x, eval m s = Returned x.

(** Two strings equal up to the case of their letters. *)
Definition ci_eq (s t : string) : Prop := Py.lower s = Py.lower t.

(** [token] occurs in [line] as a substring, the case of letters ignored. *)
Definition ci_occurs (token line : string) : Prop :=
  exists pre mid post, line = pre ++ mid ++ post /\ ci_eq mid token.

Inductive Severity := Error | Warning | Normal.

Record LogLine := {
  text : string;
  severity : Severity
}.

(** How the log panel styles a line of each severity. *)
Definition styled (l : LogLine) : string :=
  match severity l with
  | Error => "[red]" ++ text l ++ "[/]"
  | Warning => "[yellow]" ++ text l ++ "[/]"
  | Normal => text l
  end.

(** The commands the console shows to have been run. *)
Fixpoint commands_run (events : list ConsoleEvent) : list (list string) :=
  match events with
  | [] => []
  | Run argv :: rest => argv :: commands_run rest
  | _ :: rest => commands_run rest
  end.

(** The events of the two list views. *)
Definition pods_list_event (i : ListItem) : Selected :=
  {| list_view_id := "pods-list"; item := i |}.

Definition containers_list_event (i : ListItem) : Selected :=
  {| list_view_id := "containers-list"; item := i |}.

(** The elements of a list up to and including the first that satisfies
    [p]; the whole list when none does. *)
Fixpoint up_to_first {A : Type} (p : A -> bool) (l : list A) : list A :=
  match l with
  | [] => []
  | x :: rest => if p x then [x] else x :: up_to_first p rest
  end.

(** A candidate opens a shell that ends with return code 0. *)
Definition succeeds (run : list string -> RunOutcome) (ns pod_name container shell : string) : bool :=
  match run (shell_argv ns pod_name container shell) with
  | Completed rc => (rc =? 0)%Z
  | RunFailed => false
  end.

(** The log presenter in the specification's words: split on line breaks,
    drop the empty lines, classify each line that is left by a search for
    the tokens that ignores case. *)
Definition ci_occursb (token line : string) : bool :=
  Py.contains (Py.lower token) (Py.lower line).

Definition classify (line : string) : Severity :=
  if ci_occursb "ERROR" line || ci_occursb "FATAL" line then Error
  else if ci_occursb "WARN" line || ci_occursb "WARNING" line then Warning
  else Normal.

Definition present (raw : string) : list LogLine :=
  map (fun l => {| text := l; severity := classify l |})
      (filter Py.truthy (Py.split Py.LF raw)).

(** The cluster treats a log request that does not say whether to follow
    as one that says not to, the default the API documents. *)
Definition follow_defaults_to_false (api : CoreV1Api) : Prop :=
  forall pod_name ns container tail,
    read_namespaced_pod_log api
      {| req_name := pod_name; req_namespace := ns; req_container := container;
         req_follow := None; req_tail_lines := tail |}
    = read_namespaced_pod_log api
      {| req_name := pod_name; req_namespace := ns; req_container := container;
         req_follow := Some false; req_tail_lines := tail |}.

(** ** Constructors *)

(** [K8sClient.__init__], once the kubeconfig is loaded. *)
Definition new_K8sClient (api : CoreV1Api) : outcome K8sClient * K8sClient :=
  (self <- (_refresh_namespaces ;; get) ;; ret self)
    {| namespace := "default"; _namespace_list := []; core_v1 := api; logger := [] |}.

(** [LazyK8sApp.__init__]. *)
Definition new_LazyK8sApp (c : K8sClient) : LazyK8sApp :=
  {| k8s_client := c; pods := []; selected_pod := None; selected_container := None;
     current_namespace := namespace c; status_bar := ""; pods_list := [];
     containers_list := []; info_panel := ""; logs_panel := []; console := [] |}.

(** The states the application goes through, from its construction on. *)
Inductive reachable : LazyK8sApp -> Prop :=
| reachable_new (c : K8sClient) : reachable (new_LazyK8sApp c)
| reachable_step (a : LazyK8sApp) (act : Action) :
    reachable a -> offered a act -> reachable (exec (perform act) a).

(** ** Sample clusters and states *)

Module Sample.

Definition quiet : V1ContainerState := {| waiting := None; terminated := None |}.

Definition web1 : V1Pod :=
  {| metadata := {| name := "web-1" |};
     spec := {| node_name := Some "node-a";
                containers := [ {| container_name := "app"; image := "nginx:1.25" |};
                                {| container_name := "sidecar"; image := "envoy:1.29" |} ] |};
     status := {| phase := Some "Running"; reason := None; pod_ip := Some "10.0.0.7";
                  container_statuses :=
                    Some [ {| status_name := "app"; ready := true;
                              restart_count := 2; state := quiet |};
                           {| status_name := "sidecar"; ready := false;
                              restart_count := 5; state := quiet |} ] |} |}.

(** A pod whose containers report reasons. *)
Definition crashing : V1Pod :=
  {| metadata := {| name := "job-7" |};
     spec := {| node_name := None;
                containers := [ {| container_name := "init"; image := "busybox" |};
                                {| container_name := "main"; image := "worker:3" |};
                                {| container_name := "log"; image := "fluentd" |} ] |};
     status := {| phase := Some "Pending"; reason := Some "Evicted"; pod_ip := None;
                  container_statuses :=
                    Some [ {| status_name := "init"; ready := false; restart_count := 1;
                              state := {| waiting := Some {| waiting_reason := Some "ImagePullBackOff" |};
                                          terminated := Some {| terminated_reason := Some "Error" |} |} |};
                           {| status_name := "main"; ready := false; restart_count := 4;
                              state := {| waiting := Some {| waiting_reason := None |};
                                          terminated := Some {| terminated_reason := Some "OOMKilled" |} |} |};
                           {| status_name := "log"; ready := true; restart_count := 0;
                              state := quiet |} ] |} |}.

Definition unavailable : ApiException := {| exc_text := "(503) Service Unavailable" |}.

(** A cluster whose every call fails. *)
Definition down : CoreV1Api :=
  {| list_namespace := Raised unavailable;
     list_namespaced_pod := fun _ => Raised unavailable;
     read_namespaced_pod := fun _ _ => Raised unavailable;
     read_namespaced_pod_log := fun _ => Raised unavailable;
     active_context_cluster := Raised unavailable;
     git_version := Raised unavailable |}.

(** A cluster with three namespaces and no pod; it refuses to follow logs. *)
Definition idle : CoreV1Api :=
  {| list_namespace :=
       Returned [ {| ns_metadata := {| name := "Default" |} |};
                  {| ns_metadata := {| name := "kube-system" |} |};
                  {| ns_metadata := {| name := "prod-eu" |} |} ];
     list_namespaced_pod := fun _ => Returned [];
     read_namespaced_pod := fun _ _ => Raised {| exc_text := "(404) Not Found" |};
     read_namespaced_pod_log := fun r =>
       match req_follow r with
       | Some true => Raised {| exc_text := "(400) Bad Request" |}
       | _ => Returned ("INFO ok" ++ Py.NL ++ Py.NL ++ "ERROR boom" ++ Py.NL ++ "WARN low disk")
       end;
     active_context_cluster := Returned (Some "kind-dev");
     git_version := Returned "v1.30.0" |}.

Definition client_on (api : CoreV1Api) : K8sClient :=
  {| namespace := "default"; _namespace_list := ["Default"; "kube-system"; "prod-eu"];
     core_v1 := api; logger := [] |}.

(** The user looks at container [app] of pod [web-1]. *)
Definition watching (api : CoreV1Api) : LazyK8sApp :=
  {| k8s_client := client_on api; pods := [web1]; selected_pod := Some web1;
     selected_container := Some "app"; current_namespace := "default";
     status_bar := ""; pods_list := [new_PodItem web1];
     containers_list := [new_ContainerItem "app"; new_ContainerItem "sidecar"];
     info_panel := ""; logs_panel := []; console := [] |}.

(** A cluster that runs pod [web-1] in the default namespace. *)
Definition busy : CoreV1Api :=
{| list_namespace := Returned [ {| ns_metadata := {| name := "default" |} |} ];
   list_namespaced_pod := fun ns =>
     if String.eqb ns "default" then Returned [web1] else Returned [];
   read_namespaced_pod := fun _ _ => Returned web1;
   read_namespaced_pod_log := fun _ => Returned ("started" ++ Py.NL ++ "fatal: no route");
   active_context_cluster := Returned None;
   git_version := Returned "v1.29.3" |}.

(** The application is mounted, then the user picks the pod and its
    container [app]. *)
Definition session : LazyK8sApp :=
  exec (perform (Select (containers_list_event (new_ContainerItem "app"))))
    (exec (perform (Select (pods_list_event (new_PodItem web1))))
       (exec (perform Mount) (new_LazyK8sApp (client_on busy)))).

(** Every shell starts and ends with return code 1. *)
Definition exits_1 : list string -> RunOutcome := fun _ => Completed 1.

(** No [bash] in the container; [sh] works. *)
Definition only_sh : list string -> RunOutcome :=
  fun argv =>
    match rev argv with
    | "/bin/sh" :: _ => Completed 0
    | "/bin/bash" :: _ => Completed 126
    | _ => RunFailed
    end.

Definition raw_log : string :=
  "INFO ok" ++ Py.NL ++ Py.NL ++ "ERROR boom" ++ Py.NL ++ "WARN low disk".

End Sample.

(** ** The rest of [lazyk8s/k8s_client.py] *)

Definition get_pod (pod_name : string) : K8s (option V1Pod) :=
  try_except
    (pod <- call (fun self => read_namespaced_pod (core_v1 self) pod_name (namespace self)) ;;
     ret (Some pod))
    (fun e =>
       logger_error ("Failed to get pod " ++ pod_name ++ ": " ++ exc_text e) ;;
       ret None).

(** The arguments [exec_in_pod] hands to [stream]. *)
Record ExecRequest := {
  exec_name : string;
  exec_namespace : string;
  exec_container : string;
  exec_command : list string;
  exec_stderr : bool;
  exec_stdin : bool;
  exec_stdout : bool;
  exec_tty : bool
}.

Section ClusterWrites.

(** The calls of [self.core_v1] that act on the cluster. *)
Variable delete_namespaced_pod : string -> string -> outcome unit.
Variable core_v1_delete_namespace : string -> outcome unit.
Variable connect_get_namespaced_pod_exec : ExecRequest -> outcome string.

Definition exec_in_pod (pod_name container : string) (command : list string) : K8s string :=
  try_except
    (call (fun self =>
       connect_get_namespaced_pod_exec
         {| exec_name := pod_name; exec_namespace := namespace self;
            exec_container := container; exec_command := command;
            exec_stderr := true; exec_stdin := false;
            exec_stdout := true; exec_tty := false |}))
    (fun e =>
       logger_error ("Failed to exec in pod: " ++ exc_text e) ;;
       ret ("Error: " ++ exc_text e)).

Definition delete_pod (pod_name : string) : K8s bool :=
  try_except
    (call (fun self => delete_namespaced_pod pod_name (namespace self)) ;;
     ret true)
    (fun e =>
       logger_error ("Failed to delete pod " ++ pod_name ++ ": " ++ exc_text e) ;;
       ret false).

Definition delete_namespace (namespace_name : string) : K8s bool :=
  try_except
    (call (fun self => core_v1_delete_namespace namespace_name) ;;
     ret true)
    (fun e =>
       logger_error ("Failed to delete namespace " ++ namespace_name ++ ": " ++ exc_text e) ;;
       ret false).

End ClusterWrites.

(** ** What the widgets are expected to show *)

(** The pod list shows the cached pods, one item each, in order. *)
Definition pods_shown (a : LazyK8sApp) : Prop :=
  pods_list a = map new_PodItem (pods a).

(** The items for the containers of the selected pod. *)
Definition containers_of_selection (a : LazyK8sApp) : list ListItem :=
  match selected_pod a with
  | Some pod => map new_ContainerItem (get_container_names pod)
  | None => []
  end.

(** The selected container, when there is one, is a container of the
    selected pod. *)
Definition container_of_selected_pod (a : LazyK8sApp) : Prop :=
  forall c, selected_container a = Some c ->
    exists pod, selected_pod a = Some pod /\ In c (get_container_names pod).

(** The lines of the info panel for a pod. *)
Definition info_lines (pod : V1Pod) : list string :=
  [ "[b]" ++ name (metadata pod) ++ "[/]";
    "[dim]node:[/] " ++ Py.or_else (node_name (spec pod)) "n/a"
      ++ "  [dim]ip:[/] " ++ Py.or_else (pod_ip (status pod)) "n/a";
    "" ]
  ++ flat_map (fun c => ["[cyan]●[/] " ++ container_name c;
                         "  [dim]" ++ image c ++ "[/]"])
       (containers (spec pod)).

Definition shown_info (a : LazyK8sApp) : string :=
  match selected_pod a with
  | Some pod => Py.join Py.NL (info_lines pod)
  | None => "[dim]no pod selected[/]"
  end.

(** The request for the logs of the selection; [first] is the pod's first
    container. *)
Definition log_request (a : LazyK8sApp) (pod : V1Pod) (first : string) : LogRequest :=
  {| req_name := name (metadata pod);
     req_namespace := namespace (k8s_client a);
     req_container := Py.or_else (selected_container a) first;
     req_follow := None;
     req_tail_lines := Some 100%Z |}.

(** The text a log request comes back as. *)
Definition log_text (api : CoreV1Api) (r : LogRequest) : string :=
  match read_namespaced_pod_log api r with
  | Returned logs => logs
  | Raised e => "Error: " ++ exc_text e
  end.

Definition shown_logs (a : LazyK8sApp) : list string :=
  match selected_pod a with
  | None => ["[dim]no pod selected[/]"]
  | Some pod =>
      match get_container_names pod with
      | [] => ["[dim]no containers found[/]"]
      | first :: _ =>
          map styled (present (log_text (core_v1 (k8s_client a)) (log_request a pod first)))
      end
  end.

(** The version the status bar shows. *)
Definition shown_version (api : CoreV1Api) : string :=
  match active_context_cluster api, git_version api with
  | Returned _, Returned version => version
  | _, _ => "unknown"
  end.

(** The pods the cluster lists in a namespace, none when the call fails. *)
Definition listed_pods (api : CoreV1Api) (ns : string) : list V1Pod :=
  match list_namespaced_pod api ns with
  | Returned l => l
  | Raised _ => []
  end.

(** An attribute of the client that the logger has no part in. *)
Definition log_blind {T : Type} (g : K8sClient -> T) : Prop :=
  forall c l,
    g {| namespace := namespace c; _namespace_list := _namespace_list c;
         core_v1 := core_v1 c; logger := l |} = g c.

(** The three colours of a pod's bullet. *)
Definition green : string := "[green]●[/]".
Definition yellow : string := "[yellow]●[/]".
Definition red : string := "[red]●[/]".

(** ** More sample clusters and states *)

Module Case.

(** Pod [web-1] with its container statuses in the other order. *)
Definition web1_reordered : V1Pod :=
{| metadata := metadata Sample.web1;
   spec := spec Sample.web1;
   status := {| phase := Some "Running"; reason := None; pod_ip := Some "10.0.0.7";
                container_statuses := Some (rev (statuses_of Sample.web1)) |} |}.

End Case.

(** * Properties *)

(** ** The built-ins on sample inputs *)

Example upper_sample : Py.upper "Warn: low disk {x}" = "WARN: LOW DISK {X}".
Proof. reflexivity. Qed.

Example lower_sample : Py.lower "Kube-System_9Z" = "kube-system_9z".
Proof. reflexivity. Qed.

Example split_sample :
  Py.split Py.LF ("a" ++ Py.NL ++ Py.NL ++ "b" ++ Py.NL) = ["a"; ""; "b"; ""].
Proof. reflexivity. Qed.

Example contains_sample :
  Py.contains "rod" "prod-eu" = true /\ Py.contains "rod" "road" = false.
Proof. split; reflexivity. Qed.

Example str_int_sample :
  Py.str_int 0 = "0" /\ Py.str_int 12 = "12" /\ Py.str_int (-3) = "-3".
Proof. repeat split; reflexivity. Qed.

Example get_pod_status_sample :
  get_pod_status Sample.web1 = "Running (1/2) Restarts:7"
  /\ get_pod_status Sample.crashing = "OOMKilled (1/3) Restarts:5".
Proof. split; reflexivity. Qed.

(** ** The status line *)

Section StatusLoop.

Local Open Scope Z_scope.

Lemma last_cons {A} (l : list A) : forall x d, last (x :: l) d = last l x.
Proof.
  induction l as [|y l IH]; intros x d; [reflexivity|].
  change (last (x :: y :: l) d) with (last (y :: l) d).
  rewrite !IH. reflexivity.
Qed.

Lemma status_loop_ready l : forall acc,
  acc_ready (fold_left status_step l acc) = acc_ready acc + ready_count l.
Proof.
  unfold ready_count.
  induction l as [|cs l IH]; intros acc; simpl.
  - lia.
  - rewrite IH. unfold status_step at 1; simpl.
    destruct (ready cs); simpl List.length; lia.
Qed.

Lemma status_loop_restarts l : forall acc,
  acc_restarts (fold_left status_step l acc) = acc_restarts acc + restart_sum l.
Proof.
  unfold restart_sum.
  induction l as [|cs l IH]; intros acc; simpl.
  - lia.
  - rewrite IH. simpl. lia.
Qed.

Lemma ready_count_bounds l : 0 <= ready_count l <= Z.of_nat (List.length l).
Proof.
  unfold ready_count. split; [lia|].
  apply inj_le. induction l as [|cs l IH]; simpl; [lia|].
  destruct (ready cs); simpl; lia.
Qed.

(** One turn of the loop sets the phase to the reason the entry carries
    and leaves it alone when the entry carries none. *)
Lemma status_step_phase acc cs :
  acc_phase (status_step acc cs) =
  match carried_reason cs with
  | Some r => Some r
  | None => acc_phase acc
  end.
Proof.
  unfold status_step, carried_reason; simpl.
  destruct (waiting (state cs)) as [[[[|c r]|]]|];
    destruct (terminated (state cs)) as [[[[|c' r']|]]|]; reflexivity.
Qed.

Lemma status_loop_phase l : forall acc,
  acc_phase (fold_left status_step l acc) =
  match carried_reasons l with
  | [] => acc_phase acc
  | r :: rs => Some (last rs r)
  end.
Proof.
  induction l as [|cs l IH]; intros acc; simpl; [reflexivity|].
  rewrite IH, status_step_phase.
  destruct (carried_reason cs) as [r|]; [|reflexivity].
  destruct (carried_reasons l) as [|r' rs]; [reflexivity|].
  rewrite last_cons. reflexivity.
Qed.

(** The summary reads the status list when it is there and not empty. *)
Lemma summary_unfold pod :
  pod_status_summary pod =
  let acc := fold_left status_step (statuses_of pod)
               {| acc_phase := if Py.truthy_opt (reason (status pod))
                               then reason (status pod) else phase (status pod);
                  acc_ready := 0; acc_restarts := 0 |} in
  {| sum_phase := acc_phase acc; sum_ready := acc_ready acc;
     sum_total := Z.of_nat (List.length (statuses_of pod));
     sum_restarts := acc_restarts acc |}.
Proof.
  unfold pod_status_summary, statuses_of.
  destruct (container_statuses (status pod)) as [[|cs l]|]; reflexivity.
Qed.

End StatusLoop.

(** C2. For every pod, the status derivation gives a ready count that is at
    most the total count (it is the number of entries whose ready flag is
    set), a total count equal to the length of the container-status list
    (0 when the list is absent or empty), and a restart count equal to the
    sum of the restart counts of the entries; the status line prints these
    values. *)
Theorem status_counts (pod : V1Pod) :
  let s := pod_status_summary pod in
  (sum_ready s <= sum_total s)%Z
  /\ sum_ready s = ready_count (statuses_of pod)
  /\ sum_total s = Z.of_nat (List.length (statuses_of pod))
  /\ sum_restarts s = restart_sum (statuses_of pod)
  /\ (forall m sp ph r ip,
        sum_total (pod_status_summary
          {| metadata := m; spec := sp;
             status := {| phase := ph; reason := r; pod_ip := ip;
                          container_statuses := None |} |}) = 0%Z
        /\ sum_total (pod_status_summary
          {| metadata := m; spec := sp;
             status := {| phase := ph; reason := r; pod_ip := ip;
                          container_statuses := Some [] |} |}) = 0%Z)
  /\ get_pod_status pod =
       Py.str_opt (sum_phase s) ++ " (" ++ Py.str_int (sum_ready s) ++ "/"
       ++ Py.str_int (sum_total s) ++ ") Restarts:" ++ Py.str_int (sum_restarts s).
Proof.
  intros s. subst s. rewrite summary_unfold. cbv zeta. simpl.
  rewrite status_loop_ready, status_loop_restarts. simpl.
  pose proof (ready_count_bounds (statuses_of pod)) as Hb.
  repeat split; try lia; try reflexivity.
  unfold get_pod_status, format_status. rewrite summary_unfold. cbv zeta. simpl.
  rewrite status_loop_ready, status_loop_restarts. reflexivity.
Qed.

(** C3. When at least one container status carries a reason (a non-empty
    waiting reason, otherwise a non-empty terminated reason), the derived
    phase is the last such reason in list order, whatever the raw phase and
    the pod's own reason are; in one entry the waiting reason wins over the
    terminated reason, which counts when there is no waiting reason. *)
Theorem last_reason_wins (pod : V1Pod) :
  carried_reasons (statuses_of pod) <> [] ->
  sum_phase (pod_status_summary pod) = Some (last (carried_reasons (statuses_of pod)) "")
  /\ (forall nm rd rc c w t,
        carried_reason
          {| status_name := nm; ready := rd; restart_count := rc;
             state := {| waiting := Some {| waiting_reason := Some (String c w) |};
                         terminated := t |} |} = Some (String c w))
  /\ (forall nm rd rc c r,
        carried_reason
          {| status_name := nm; ready := rd; restart_count := rc;
             state := {| waiting := None;
                         terminated := Some {| terminated_reason := Some (String c r) |} |} |}
        = Some (String c r)
        /\ carried_reason
          {| status_name := nm; ready := rd; restart_count := rc;
             state := {| waiting := Some {| waiting_reason := None |};
                         terminated := Some {| terminated_reason := Some (String c r) |} |} |}
        = Some (String c r)
        /\ carried_reason
          {| status_name := nm; ready := rd; restart_count := rc;
             state := {| waiting := Some {| waiting_reason := Some "" |};
                         terminated := Some {| terminated_reason := Some (String c r) |} |} |}
        = Some (String c r)).
Proof.
  intros Hne. split; [|split; intros; repeat split; reflexivity].
  rewrite summary_unfold. cbv zeta. simpl. rewrite status_loop_phase.
  destruct (carried_reasons (statuses_of pod)) as [|r rs]; [contradiction|].
  rewrite last_cons. reflexivity.
Qed.

Lemma last_reason_wins_sample :
  carried_reasons (statuses_of Sample.crashing) <> []
  /\ sum_phase (pod_status_summary Sample.crashing) = Some "OOMKilled".
Proof.
  split.
  - discriminate.
  - exact (proj1 (last_reason_wins Sample.crashing ltac:(discriminate))).
Defined.

(** ** Computations: what they keep and whether they return *)

Section Frame.

Context {T : Type} (f : LazyK8sApp -> T).

Lemma keeps_ret {A} (x : A) : keeps f (ret x).
Proof. intros a. reflexivity. Qed.

Lemma keeps_get : keeps f get.
Proof. intros a. reflexivity. Qed.

Lemma keeps_bind {A B} (m : App A) (k : A -> App B) :
  keeps f m -> (forall x, keeps f (k x)) -> keeps f (bind m k).
Proof.
  intros Hm Hk a. specialize (Hm a). unfold exec, bind in *.
  destruct (m a) as [[x|e] a']; simpl in *.
  - rewrite <- Hm. apply Hk.
  - exact Hm.
Qed.

Lemma keeps_for_each {A} (l : list A) (body : A -> App unit) :
  (forall x, keeps f (body x)) -> keeps f (for_each l body).
Proof.
  intros Hb. induction l as [|x l IH]; simpl.
  - apply keeps_ret.
  - apply keeps_bind; [apply Hb | intros _; exact IH].
Qed.

Lemma keeps_modify (g : LazyK8sApp -> LazyK8sApp) :
  (forall a, f (g a) = f a) -> keeps f (modify g).
Proof. intros Hg a. apply Hg. Qed.

Lemma keeps_client {A} (m : K8s A) :
  (forall c a, f (with_k8s_client c a) = f a) -> keeps f (client m).
Proof.
  intros Hc a. unfold exec, client, zoom.
  destruct (m (k8s_client a)) as [r c]. simpl. apply Hc.
Qed.

End Frame.

Lemma exec_bind {S A B} (m : M S A) (k : A -> M S B) (s : S) (x : A) :
  eval m s = Returned x -> exec (bind m k) s = exec (k x) (exec m s).
Proof.
  unfold eval, exec, bind. destruct (m s) as [[y|e] s']; simpl; intros H.
  - injection H as ->. reflexivity.
  - discriminate.
Qed.

Lemma eval_bind {S A B} (m : M S A) (k : A -> M S B) (s : S) (x : A) :
  eval m s = Returned x -> eval (bind m k) s = eval (k x) (exec m s).
Proof.
  unfold eval, exec, bind. destruct (m s) as [[y|e] s']; simpl; intros H.
  - injection H as ->. reflexivity.
  - discriminate.
Qed.

Lemma returns_ret {S A} (x : A) : returns (@ret S A x).
Proof. intros s. exists x. reflexivity. Qed.

Lemma returns_get {S} : returns (@get S).
Proof. intros s. exists s. reflexivity. Qed.

Lemma returns_gets {S A} (g : S -> A) : returns (gets g).
Proof. intros s. exists (g s). reflexivity. Qed.

Lemma returns_modify {S} (g : S -> S) : returns (modify g).
Proof. intros s. exists tt. reflexivity. Qed.

Lemma returns_bind {S A B} (m : M S A) (k : A -> M S B) :
  returns m -> (forall x, returns (k x)) -> returns (bind m k).
Proof.
  intros Hm Hk s. destruct (Hm s) as [x Hx].
  rewrite (eval_bind _ _ _ _ Hx). apply Hk.
Qed.

Lemma returns_for_each {S A} (l : list A) (body : A -> M S unit) :
  (forall x, returns (body x)) -> returns (for_each l body).
Proof.
  intros Hb. induction l as [|x l IH]; simpl.
  - apply returns_ret.
  - apply returns_bind; [apply Hb | intros _; exact IH].
Qed.

(** A handler that returns makes the whole [try] return. *)
Lemma returns_try_except {S A} (body : M S A) (handler : ApiException -> M S A) :
  (forall e, returns (handler e)) -> returns (try_except body handler).
Proof.
  intros Hh s. unfold eval, try_except.
  destruct (body s) as [[x|e] s'] eqn:E.
  - exists x. reflexivity.
  - apply Hh.
Qed.

Lemma returns_client {A} (m : K8s A) : returns m -> returns (client m).
Proof.
  intros Hm a. destruct (Hm (k8s_client a)) as [x Hx]. exists x.
  unfold eval, client, zoom in *. destruct (m (k8s_client a)) as [r c].
  simpl in *. exact Hx.
Qed.

Lemma returns_unit {S} (m : M S unit) : returns m -> forall s, eval m s = Returned tt.
Proof. intros Hm s. destruct (Hm s) as [[] Hx]. exact Hx. Qed.

(** The client's methods that catch the API's exception return. *)
Lemma get_pods_returns : returns get_pods.
Proof.
  apply returns_try_except. intros e.
  apply returns_bind; [apply returns_modify | intros _; apply returns_ret].
Qed.

Lemma get_pod_logs_returns pod_name container lines :
  returns (get_pod_logs pod_name container lines).
Proof.
  apply returns_try_except. intros e.
  apply returns_bind; [apply returns_modify | intros _; apply returns_ret].
Qed.

Lemma get_cluster_info_returns : returns get_cluster_info.
Proof.
  apply returns_try_except. intros e.
  apply returns_bind; [apply returns_modify | intros _; apply returns_ret].
Qed.

(** Steps of a proof that a method of the application keeps an attribute
    or returns. *)
Ltac frame_step :=
  first
    [ apply keeps_ret
    | apply keeps_get
    | apply keeps_modify; intros; reflexivity
    | apply keeps_client; intros; reflexivity
    | apply keeps_for_each; intros
    | apply keeps_bind; [|intros]
    | match goal with
      | |- keeps _ (match ?x with _ => _ end) => destruct x
      | |- keeps _ (if ?b then _ else _) => destruct b
      end ].

Ltac frame := repeat frame_step.

Ltac returns_step :=
  first
    [ apply returns_ret
    | apply returns_get
    | apply returns_gets
    | apply returns_modify
    | apply returns_client;
        first [ apply get_pods_returns | apply get_pod_logs_returns
              | apply get_cluster_info_returns | apply returns_gets ]
    | apply returns_for_each; intros
    | apply returns_bind; [|intros]
    | match goal with
      | |- returns (match ?x with _ => _ end) => destruct x
      | |- returns (if ?b then _ else _) => destruct b
      end ].

Ltac returning := repeat returns_step.

Section Widgets.

Context {T : Type} (f : LazyK8sApp -> T).

(** An attribute that no widget and no client call touches. *)
Hypothesis f_client : forall c a, f (with_k8s_client c a) = f a.
Hypothesis f_pods_list : forall l a, f (with_pods_list l a) = f a.
Hypothesis f_containers_list : forall l a, f (with_containers_list l a) = f a.
Hypothesis f_info_panel : forall s a, f (with_info_panel s a) = f a.
Hypothesis f_logs_panel : forall l a, f (with_logs_panel l a) = f a.
Hypothesis f_status_bar : forall s a, f (with_status_bar s a) = f a.
Hypothesis f_console : forall l a, f (with_console l a) = f a.

Ltac widget_step :=
  first
    [ apply keeps_ret
    | apply keeps_get
    | apply keeps_modify; intros;
        first [ apply f_pods_list | apply f_containers_list | apply f_info_panel
              | apply f_logs_panel | apply f_status_bar | apply f_console ]
    | apply keeps_client; exact f_client
    | apply keeps_for_each; intros
    | apply keeps_bind; [|intros]
    | match goal with
      | |- keeps _ (match ?x with _ => _ end) => destruct x
      | |- keeps _ (if ?b then _ else _) => destruct b
      end ].

Lemma refresh_containers_keeps : keeps f refresh_containers.
Proof.
  unfold refresh_containers, containers_list_clear, containers_list_append.
  repeat widget_step.
Qed.

Lemma show_pod_info_keeps : keeps f show_pod_info.
Proof. unfold show_pod_info, info_panel_update. repeat widget_step. Qed.

Lemma write_logs_keeps logs : keeps f (write_logs logs).
Proof.
  unfold write_logs, write_log_line, logs_panel_write. repeat widget_step.
Qed.

Lemma show_pod_logs_keeps : keeps f show_pod_logs.
Proof.
  unfold show_pod_logs, logs_panel_clear, logs_panel_write.
  repeat first [ apply write_logs_keeps | widget_step ].
Qed.

Lemma refresh_status_bar_keeps : keeps f refresh_status_bar.
Proof. unfold refresh_status_bar, status_bar_update. repeat widget_step. Qed.

Lemma try_shells_keeps run ns pod_name container candidates :
  keeps f (try_shells run ns pod_name container candidates).
Proof.
  induction candidates as [|shell rest IH]; simpl.
  - apply keeps_ret.
  - unfold console_event. apply keeps_bind; [repeat widget_step|intros _].
    destruct (run _) as [rc|]; [destruct (rc =? 0)%Z|]; auto using keeps_ret.
Qed.

End Widgets.

Lemma refresh_containers_returns : returns refresh_containers.
Proof. unfold refresh_containers, containers_list_clear, containers_list_append. returning. Qed.

Lemma show_pod_info_returns : returns show_pod_info.
Proof. unfold show_pod_info, info_panel_update. returning. Qed.

Lemma write_logs_returns logs : returns (write_logs logs).
Proof. unfold write_logs, write_log_line, logs_panel_write. returning. Qed.

Lemma show_pod_logs_returns : returns show_pod_logs.
Proof.
  unfold show_pod_logs, logs_panel_clear, logs_panel_write.
  repeat first [ apply write_logs_returns | returns_step ].
Qed.

Lemma refresh_pods_returns : returns refresh_pods.
Proof. unfold refresh_pods, pods_list_clear, pods_list_append. returning. Qed.

Lemma refresh_status_bar_returns : returns refresh_status_bar.
Proof. unfold refresh_status_bar, status_bar_update. returning. Qed.

Lemma try_shells_returns run ns pod_name container candidates :
  returns (try_shells run ns pod_name container candidates).
Proof.
  induction candidates as [|shell rest IH]; simpl.
  - apply returns_ret.
  - unfold console_event. apply returns_bind; [apply returns_modify|intros _].
    destruct (run _) as [rc|]; [destruct (rc =? 0)%Z|]; auto using returns_ret.
Qed.

(** ** Refreshing the pod list *)

Lemma refresh_pods_keeps_selected_pod : keeps selected_pod refresh_pods.
Proof. unfold refresh_pods, pods_list_clear, pods_list_append. frame. Qed.

Lemma refresh_pods_keeps_selected_container : keeps selected_container refresh_pods.
Proof. unfold refresh_pods, pods_list_clear, pods_list_append. frame. Qed.

(** The list the client hands to the application: the cluster's, or the
    empty list when the call fails. *)
Lemma get_pods_eval (c : K8sClient) :
  eval get_pods c =
  Returned match list_namespaced_pod (core_v1 c) (namespace c) with
           | Returned l => l
           | Raised _ => []
           end.
Proof.
  unfold eval, get_pods, try_except, call.
  destruct (list_namespaced_pod (core_v1 c) (namespace c)); reflexivity.
Qed.

Lemma client_eval {A} (m : K8s A) (a : LazyK8sApp) :
  eval (client m) a = eval m (k8s_client a).
Proof.
  unfold eval, client, zoom. destruct (m (k8s_client a)). reflexivity.
Qed.

Lemma refresh_pods_pods (a : LazyK8sApp) :
  pods (exec refresh_pods a) =
  match list_namespaced_pod (core_v1 (k8s_client a)) (namespace (k8s_client a)) with
  | Returned l => l
  | Raised _ => []
  end.
Proof.
  unfold refresh_pods.
  rewrite (exec_bind _ _ _ _ (eq_trans (client_eval _ _) (get_pods_eval _))).
  set (l := match list_namespaced_pod _ _ with Returned l => l | Raised _ => [] end).
  assert (K : keeps pods (pods_list_clear ;; for_each l (fun pod => pods_list_append (new_PodItem pod)))).
  { unfold pods_list_clear, pods_list_append. frame. }
  rewrite (exec_bind _ _ _ tt) by reflexivity.
  rewrite K. reflexivity.
Qed.

Lemma action_refresh_after_refresh_pods {T} (f : LazyK8sApp -> T) :
  (forall c a, f (with_k8s_client c a) = f a) ->
  (forall l a, f (with_containers_list l a) = f a) ->
  (forall s a, f (with_info_panel s a) = f a) ->
  (forall l a, f (with_logs_panel l a) = f a) ->
  forall a, f (exec action_refresh a) = f (exec refresh_pods a).
Proof.
  intros H1 H2 H3 H4 a. unfold action_refresh.
  rewrite (exec_bind _ _ _ tt) by (apply returns_unit, refresh_pods_returns).
  generalize (exec refresh_pods a). clear a.
  change (keeps f (self <- get ;;
                   match selected_pod self with
                   | Some _ => refresh_containers ;; show_pod_info ;; show_pod_logs
                   | None => ret tt
                   end)).
  apply keeps_bind; [apply keeps_get|]. intros self.
  destruct (selected_pod self).
  - apply keeps_bind; [|intros _; apply keeps_bind; [|intros _]].
    + apply refresh_containers_keeps; auto.
    + apply show_pod_info_keeps; auto.
    + apply show_pod_logs_keeps; auto.
  - apply keeps_ret.
Qed.

Lemma action_refresh_returns : returns action_refresh.
Proof.
  unfold action_refresh.
  apply returns_bind; [apply refresh_pods_returns|]. intros _.
  apply returns_bind; [apply returns_get|]. intros self.
  destruct (selected_pod self); [|apply returns_ret].
  apply returns_bind; [apply refresh_containers_returns|]. intros _.
  apply returns_bind; [apply show_pod_info_returns|]. intros _.
  apply show_pod_logs_returns.
Qed.

(** ** Changing the namespace *)

(** C4, as the specification states it, fails: the user looks at container
    [app] of pod [web-1] and the namespace is set to [staging]; the client's
    namespace changes, and the cached pods and the selection stay. *)
Lemma set_namespace_leaves_selection :
  let a := Sample.watching Sample.idle in
  let a' := exec (client (set_namespace "staging")) a in
  selection a = (Some "web-1", Some "app")
  /\ namespace (k8s_client a') = "staging"
  /\ pods a' = [Sample.web1]
  /\ selection a' = (Some "web-1", Some "app")
  /\ selection (exec action_change_namespace a) = (Some "web-1", Some "app")
  /\ ~ (pods a' = [] /\ selection a' = (None, None)).
Proof.
  cbv zeta. repeat split; try reflexivity.
  intros [H _]. vm_compute in H. discriminate H.
Qed.

(** C4, amended. Setting the namespace on the client sets the client's
    current namespace to the new value at once, without a call to the
    cluster, and changes nothing else: the namespace list, the cached pod
    list, the selected pod and the selected container stay as they were.
    The change-namespace action of the application sets no namespace: it
    redraws the status bar and keeps the client's namespace, the cached
    pods and the selection. *)
Theorem set_namespace_sets_only_namespace (ns : string) (a : LazyK8sApp) :
  let a' := exec (client (set_namespace ns)) a in
  let b := exec action_change_namespace a in
  (eval (client (set_namespace ns)) a = Returned tt
   /\ namespace (k8s_client a') = ns
   /\ _namespace_list (k8s_client a') = _namespace_list (k8s_client a)
   /\ logger (k8s_client a') = logger (k8s_client a)
   /\ pods a' = pods a
   /\ selected_pod a' = selected_pod a
   /\ selected_container a' = selected_container a
   /\ current_namespace a' = current_namespace a)
  /\ (eval action_change_namespace a = Returned tt
      /\ namespace (k8s_client b) = namespace (k8s_client a)
      /\ pods b = pods a
      /\ selected_pod b = selected_pod a
      /\ selected_container b = selected_container a
      /\ current_namespace b = current_namespace a).
Proof.
  cbv zeta. split; [repeat split|].
  assert (Hn : keeps (fun x => namespace (k8s_client x)) refresh_status_bar).
  { unfold refresh_status_bar, status_bar_update.
    apply keeps_bind; [|intros hv; apply keeps_bind; [|intros n]].
    - intros x. unfold exec, client, zoom, get_cluster_info, try_except, bind, call.
      simpl.
      destruct (active_context_cluster (core_v1 (k8s_client x))) as [act|e];
        [destruct (git_version (core_v1 (k8s_client x)))|]; reflexivity.
    - intros x. reflexivity.
    - apply keeps_modify. reflexivity. }
  unfold action_change_namespace. repeat split.
  - apply returns_unit, refresh_status_bar_returns.
  - apply Hn.
  - apply (refresh_status_bar_keeps pods); reflexivity.
  - apply (refresh_status_bar_keeps selected_pod); reflexivity.
  - apply (refresh_status_bar_keeps selected_container); reflexivity.
  - apply (refresh_status_bar_keeps current_namespace); reflexivity.
Qed.

(** ** Selecting in a list view *)

Lemma after_selection_keeps {T} (f : LazyK8sApp -> T) :
  (forall c a, f (with_k8s_client c a) = f a) ->
  (forall l a, f (with_containers_list l a) = f a) ->
  (forall s a, f (with_info_panel s a) = f a) ->
  (forall l a, f (with_logs_panel l a) = f a) ->
  keeps f (refresh_containers ;; show_pod_info ;; show_pod_logs).
Proof.
  intros H1 H2 H3 H4.
  apply keeps_bind; [|intros _; apply keeps_bind; [|intros _]].
  - apply refresh_containers_keeps; auto.
  - apply show_pod_info_keeps; auto.
  - apply show_pod_logs_keeps; auto.
Qed.

Lemma on_list_view_selected_returns event : returns (on_list_view_selected event).
Proof.
  unfold on_list_view_selected.
  destruct (String.eqb _ "pods-list"); [|destruct (String.eqb _ "containers-list")];
    try apply returns_ret; destruct (item event); try apply returns_ret.
  - apply returns_bind; [apply returns_modify|intros _].
    apply returns_bind; [apply returns_modify|intros _].
    apply returns_bind; [apply refresh_containers_returns|intros _].
    apply returns_bind; [apply show_pod_info_returns|intros _].
    apply show_pod_logs_returns.
  - apply returns_bind; [apply returns_modify|intros _]. apply show_pod_logs_returns.
Qed.



(** ** Opening a shell *)

Lemma commands_run_app (l l' : list ConsoleEvent) :
  commands_run (l ++ l') = (commands_run l ++ commands_run l')%list.
Proof.
  induction l as [|[t|argv|p] l IH]; simpl; rewrite ?IH; reflexivity.
Qed.

Lemma console_event_commands (e : ConsoleEvent) (a : LazyK8sApp) :
  commands_run (console (exec (console_event e) a)) =
  (commands_run (console a) ++ commands_run [e])%list.
Proof. unfold exec, console_event, modify; simpl. apply commands_run_app. Qed.

Lemma console_event_keeps {T} (f : LazyK8sApp -> T) (e : ConsoleEvent) :
  (forall l a, f (with_console l a) = f a) -> keeps f (console_event e).
Proof. intros H. apply keeps_modify. intros a. apply H. Qed.

Lemma up_to_first_found {A} (p : A -> bool) (pre : list A) (x : A) (post : list A) :
  forallb (fun y => negb (p y)) pre = true -> p x = true ->
  up_to_first p (pre ++ x :: post) = (pre ++ [x])%list.
Proof.
  intros Hpre Hx. induction pre as [|y pre IH]; simpl in *.
  - rewrite Hx. reflexivity.
  - apply andb_prop in Hpre as [Hy Hpre]. apply negb_true_iff in Hy.
    rewrite Hy, IH by assumption. reflexivity.
Qed.

Lemma up_to_first_none {A} (p : A -> bool) (l : list A) :
  forallb (fun y => negb (p y)) l = true -> up_to_first p l = l.
Proof.
  intros Hl. induction l as [|y l IH]; simpl in *; [reflexivity|].
  apply andb_prop in Hl as [Hy Hl]. apply negb_true_iff in Hy.
  rewrite Hy, IH by assumption. reflexivity.
Qed.

(** The loop runs the candidates in order and stops after the first that
    ends with return code 0. *)
Lemma try_shells_commands run ns pod_name container candidates : forall a,
  commands_run (console (exec (try_shells run ns pod_name container candidates) a)) =
  (commands_run (console a)
   ++ map (shell_argv ns pod_name container)
          (up_to_first (succeeds run ns pod_name container) candidates))%list.
Proof.
  induction candidates as [|shell rest IH]; intros a; simpl.
  - unfold exec, ret; simpl. rewrite app_nil_r. reflexivity.
  - rewrite (exec_bind _ _ _ tt) by reflexivity.
    unfold succeeds at 1.
    destruct (run (shell_argv ns pod_name container shell)) as [rc|];
      [destruct (rc =? 0)%Z|]; simpl.
    + unfold exec; simpl. rewrite commands_run_app. reflexivity.
    + rewrite IH. unfold exec at 1; simpl.
      rewrite commands_run_app; simpl. rewrite <- app_assoc. reflexivity.
    + rewrite IH. unfold exec at 1; simpl.
      rewrite commands_run_app; simpl. rewrite <- app_assoc. reflexivity.
Qed.

Lemma after_shell_keeps {T} (f : LazyK8sApp -> T) :
  (forall c a, f (with_k8s_client c a) = f a) ->
  (forall l a, f (with_pods l a) = f a) ->
  (forall l a, f (with_pods_list l a) = f a) ->
  (forall s a, f (with_info_panel s a) = f a) ->
  (forall l a, f (with_logs_panel l a) = f a) ->
  keeps f (refresh_pods ;;
           self' <- get ;;
           match selected_pod self' with
           | Some _ => show_pod_info ;; show_pod_logs
           | None => ret tt
           end).
Proof.
  intros H1 H2 H3 H4 H5.
  apply keeps_bind; [|intros _; apply keeps_bind; [apply keeps_get|intros self']].
  - unfold refresh_pods, pods_list_clear, pods_list_append.
    apply keeps_bind; [apply keeps_client; exact H1|intros l].
    apply keeps_bind; [apply keeps_modify; apply H2|intros _].
    apply keeps_bind; [apply keeps_modify; apply H3|intros _].
    apply keeps_for_each. intros pod. apply keeps_modify. intros a. apply H3.
  - destruct (selected_pod self'); [|apply keeps_ret].
    apply keeps_bind; [|intros _].
    + unfold show_pod_info, info_panel_update.
      apply keeps_bind; [apply keeps_get|intros s].
      destruct (selected_pod s); apply keeps_modify; apply H4.
    + unfold show_pod_logs, logs_panel_clear, logs_panel_write.
      apply keeps_bind; [apply keeps_modify; apply H5|intros _].
      apply keeps_bind; [apply keeps_get|intros s].
      destruct (selected_pod s) as [pod|]; [|apply keeps_modify; intros a; apply H5].
      destruct (get_container_names pod); [apply keeps_modify; intros a; apply H5|].
      apply keeps_bind; [apply keeps_client; exact H1|intros logs].
      unfold write_logs, write_log_line. apply keeps_for_each. intros line.
      destruct (Py.truthy line); [|apply keeps_ret].
      destruct (Py.any _ _); [|destruct (Py.any _ _)];
        apply keeps_modify; intros a; apply H5.
Qed.

Lemma action_open_shell_returns run : returns (action_open_shell run).
Proof.
  unfold action_open_shell.
  apply returns_bind; [apply returns_get|intros self].
  destruct (selected_pod self) as [pod|]; [|apply returns_ret].
  destruct (get_container_names pod); [apply returns_ret|].
  apply returns_bind; [apply returns_client, returns_gets|intros ns].
  apply returns_bind; [apply returns_modify|intros _].
  apply returns_bind; [apply try_shells_returns|intros _].
  apply returns_bind; [apply returns_modify|intros _].
  apply returns_bind; [apply refresh_pods_returns|intros _].
  apply returns_bind; [apply returns_get|intros self'].
  destruct (selected_pod self'); [|apply returns_ret].
  apply returns_bind; [apply show_pod_info_returns|intros _].
  apply show_pod_logs_returns.
Qed.

(** What the shell action does when a pod with a container is selected. *)
Lemma action_open_shell_unfold run a pod first rest :
  selected_pod a = Some pod ->
  get_container_names pod = first :: rest ->
  let ns := namespace (k8s_client a) in
  let pod_name := name (metadata pod) in
  let container := Py.or_else (selected_container a) first in
  exec (action_open_shell run) a =
  exec (refresh_pods ;;
        self' <- get ;;
        match selected_pod self' with
        | Some _ => show_pod_info ;; show_pod_logs
        | None => ret tt
        end)
    (exec (console_event (Input (Py.NL ++ "Press Enter to return to lazyk8s...")))
       (exec (try_shells run ns pod_name container shells)
          (exec (console_event (Print (Py.NL ++ "● Opening shell: " ++ ns ++ "/"
                                       ++ pod_name ++ "/" ++ container ++ Py.NL)))
             (exec (client get_current_namespace) a)))).
Proof.
  intros Hp Hc. cbv zeta. unfold action_open_shell.
  rewrite (exec_bind _ _ _ a) by reflexivity.
  change (exec get a) with a. rewrite Hp, Hc.
  rewrite (exec_bind _ _ _ (namespace (k8s_client a))) by reflexivity.
  rewrite (exec_bind _ _ _ tt) by reflexivity.
  rewrite (exec_bind _ _ _ tt) by (apply returns_unit, try_shells_returns).
  rewrite (exec_bind _ _ _ tt) by reflexivity.
  reflexivity.
Qed.




(** ** Strings: substrings, letter case and lines *)

Section Strings.

Lemma append_nil_r (s : string) : s ++ "" = s.
Proof. induction s as [|c s IH]; simpl; [|rewrite IH]; reflexivity. Qed.

Lemma append_assoc (s t u : string) : (s ++ t) ++ u = s ++ t ++ u.
Proof. induction s as [|c s IH]; simpl; [|rewrite IH]; reflexivity. Qed.

Lemma prefix_iff (p s : string) :
  prefix p s = true <-> exists post, s = p ++ post.
Proof.
  revert s. induction p as [|a p IH]; intros s; simpl.
  - destruct s; simpl; split; try reflexivity; intros _; eexists; reflexivity.
  - destruct s as [|b s]; simpl.
    + split; [discriminate | intros [post H]; discriminate H].
    + destruct (ascii_dec a b) as [->|Hab].
      * rewrite IH. split; intros [post H]; exists post.
        -- rewrite H. reflexivity.
        -- injection H as H. exact H.
      * split; [discriminate|]. intros [post H]. injection H as H1 H2.
        symmetry in H1. contradiction.
Qed.

Lemma contains_iff (sub s : string) :
  Py.contains sub s = true <-> exists pre post, s = pre ++ sub ++ post.
Proof.
  induction s as [|c s IH].
  - change (Py.contains sub "") with (prefix sub "" || false).
    rewrite orb_false_r, prefix_iff. split.
    + intros [post H]. exists "", post. exact H.
    + intros [[|c pre] [post H]]; [exists post; exact H | discriminate H].
  - change (Py.contains sub (String c s))
      with (prefix sub (String c s) || Py.contains sub s).
    rewrite orb_true_iff, prefix_iff, IH. split.
    + intros [[post H] | [pre [post H]]].
      * exists "", post. exact H.
      * exists (String c pre), post. simpl. rewrite H. reflexivity.
    + intros [[|c' pre] [post H]].
      * left. exists post. exact H.
      * right. simpl in H. injection H as _ H. exists pre, post. exact H.
Qed.

Variable f : ascii -> ascii.

Lemma map_chars_app (s t : string) :
  Py.map_chars f (s ++ t) = Py.map_chars f s ++ Py.map_chars f t.
Proof. induction s as [|c s IH]; simpl; [|rewrite IH]; reflexivity. Qed.

(** A split of the image of a string comes from a split of the string. *)
Lemma map_chars_split (s a b : string) :
  Py.map_chars f s = a ++ b ->
  exists x y, s = x ++ y /\ Py.map_chars f x = a /\ Py.map_chars f y = b.
Proof.
  revert s. induction a as [|c a IH]; intros s H; simpl in H.
  - exists "", s. repeat split. exact H.
  - destruct s as [|d s]; simpl in H; [discriminate H|].
    injection H as Hc H. destruct (IH s H) as [x [y [E [Hx Hy]]]].
    exists (String d x), y. simpl. rewrite E, Hx, Hc. repeat split. exact Hy.
Qed.

End Strings.

Lemma lower_upper_char (c : ascii) : Py.lower_char (Py.upper_char c) = Py.lower_char c.
Proof. destruct c as [[] [] [] [] [] [] [] []]; reflexivity. Qed.

Lemma upper_lower_char (c : ascii) : Py.upper_char (Py.lower_char c) = Py.upper_char c.
Proof. destruct c as [[] [] [] [] [] [] [] []]; reflexivity. Qed.

Lemma lower_upper (s : string) : Py.lower (Py.upper s) = Py.lower s.
Proof.
  induction s as [|c s IH]; [reflexivity|].
  unfold Py.lower, Py.upper in *. simpl. rewrite lower_upper_char, IH. reflexivity.
Qed.

Lemma upper_lower (s : string) : Py.upper (Py.lower s) = Py.upper s.
Proof.
  induction s as [|c s IH]; [reflexivity|].
  unfold Py.lower, Py.upper in *. simpl. rewrite upper_lower_char, IH. reflexivity.
Qed.

(** The search of the specification decides [ci_occurs]. *)
Lemma ci_occursb_iff (token line : string) :
  ci_occursb token line = true <-> ci_occurs token line.
Proof.
  unfold ci_occursb, ci_occurs, ci_eq. rewrite contains_iff. split.
  - intros [pre' [post' H]].
    destruct (map_chars_split _ _ _ _ H) as [pre [rest [E [Hpre Hrest]]]].
    destruct (map_chars_split _ _ _ _ Hrest) as [mid [post [E' [Hmid Hpost]]]].
    exists pre, mid, post. rewrite E, E'. split; [reflexivity | exact Hmid].
  - intros [pre [mid [post [E H]]]].
    exists (Py.lower pre), (Py.lower post). rewrite E.
    unfold Py.lower in *. rewrite !map_chars_app, H. reflexivity.
Qed.

(** The search of the program, for a token written in capitals: the token
    is looked for in the line put in capitals. *)
Lemma contains_upper (token line : string) :
  Py.upper token = token ->
  Py.contains token (Py.upper line) = ci_occursb token line.
Proof.
  intros Ht. apply eq_true_iff_eq. rewrite ci_occursb_iff, contains_iff.
  unfold ci_occurs, ci_eq. split.
  - intros [pre' [post' H]].
    destruct (map_chars_split _ _ _ _ H) as [pre [rest [E [Hpre Hrest]]]].
    destruct (map_chars_split _ _ _ _ Hrest) as [mid [post [E' [Hmid Hpost]]]].
    exists pre, mid, post. rewrite E, E'. split; [reflexivity|].
    rewrite <- (lower_upper mid). fold (Py.upper mid) in Hmid. rewrite Hmid. reflexivity.
  - intros [pre [mid [post [E H]]]].
    exists (Py.upper pre), (Py.upper post). rewrite E.
    unfold Py.upper at 1. rewrite !map_chars_app. fold (Py.upper mid).
    rewrite <- (upper_lower mid), H, upper_lower, Ht. reflexivity.
Qed.

(** Lines. *)

Lemma split_not_nil (sep : ascii) (s : string) : Py.split sep s <> [].
Proof.
  induction s as [|c s IH]; simpl; [discriminate|].
  destruct (Ascii.eqb c sep); [discriminate|].
  destruct (Py.split sep s); discriminate.
Qed.

Lemma join_cons (sep p : string) (rest : list string) :
  rest <> [] -> Py.join sep (p :: rest) = p ++ sep ++ Py.join sep rest.
Proof. destruct rest; [contradiction | reflexivity]. Qed.

Lemma join_split (s : string) : Py.join Py.NL (Py.split Py.LF s) = s.
Proof.
  induction s as [|c s IH]; [reflexivity|]. simpl Py.split.
  destruct (Ascii.eqb_spec c Py.LF) as [->|Hc].
  - rewrite join_cons by apply split_not_nil. rewrite IH. reflexivity.
  - pose proof (split_not_nil Py.LF s) as Hne.
    destruct (Py.split Py.LF s) as [|h [|h' t]]; [contradiction| |].
    + simpl in *. rewrite IH. reflexivity.
    + rewrite join_cons in IH by discriminate. rewrite join_cons by discriminate.
      rewrite <- IH. reflexivity.
Qed.

Lemma contains_NL_cons (c : ascii) (s : string) :
  Py.contains Py.NL (String c s) = Ascii.eqb c Py.LF || Py.contains Py.NL s.
Proof.
  change (Py.contains Py.NL (String c s))
    with ((if ascii_dec Py.LF c then prefix "" s else false) || Py.contains Py.NL s).
  f_equal. destruct (ascii_dec Py.LF c) as [<-|Hc].
  - rewrite Ascii.eqb_refl. destruct s; reflexivity.
  - symmetry. apply Ascii.eqb_neq. intros ->. apply Hc. reflexivity.
Qed.

Lemma split_lines_have_no_break (s : string) :
  forallb (fun l => negb (Py.contains Py.NL l)) (Py.split Py.LF s) = true.
Proof.
  induction s as [|c s IH]; [reflexivity|]. simpl Py.split.
  destruct (Ascii.eqb c Py.LF) eqn:Hc.
  - simpl. exact IH.
  - pose proof (split_not_nil Py.LF s) as Hne.
    destruct (Py.split Py.LF s) as [|h t]; [contradiction|].
    + simpl in IH. apply andb_prop in IH as [Hh Ht].
      change (negb (Py.contains Py.NL (String c h)) && forallb (fun l => negb (Py.contains Py.NL l)) t = true).
      rewrite contains_NL_cons, Hc, Ht. simpl. rewrite andb_true_r. exact Hh.
Qed.

(** ** The log panel *)

Lemma write_log_line_returns line : returns (write_log_line line).
Proof. unfold write_log_line, logs_panel_write. returning. Qed.

(** The colour the program picks is the severity of the specification. *)
Lemma write_log_line_panel (line : string) (a : LazyK8sApp) :
  logs_panel (exec (write_log_line line) a) =
  (logs_panel a
   ++ map styled (if Py.truthy line
                  then [{| text := line; severity := classify line |}] else []))%list.
Proof.
  unfold write_log_line, classify, Py.any. simpl existsb.
  rewrite !contains_upper by reflexivity. rewrite !orb_false_r.
  destruct (Py.truthy line); [|symmetry; apply app_nil_r].
  destruct (ci_occursb "ERROR" line || ci_occursb "FATAL" line);
    [|destruct (ci_occursb "WARN" line || ci_occursb "WARNING" line)]; reflexivity.
Qed.

Lemma write_lines_panel (l : list string) : forall a,
  logs_panel (exec (for_each l write_log_line) a) =
  (logs_panel a
   ++ map styled (map (fun x => {| text := x; severity := classify x |})
                      (filter Py.truthy l)))%list.
Proof.
  induction l as [|line l IH]; intros a.
  - symmetry. apply app_nil_r.
  - change (for_each (line :: l) write_log_line)
      with (write_log_line line ;; for_each l write_log_line).
    rewrite (exec_bind _ _ _ tt) by apply returns_unit, write_log_line_returns.
    rewrite IH, write_log_line_panel. simpl filter.
    destruct (Py.truthy line); simpl; rewrite <- app_assoc; reflexivity.
Qed.

Lemma get_pod_logs_eval pod_name container lines (c : K8sClient) :
  eval (get_pod_logs pod_name container lines) c =
  Returned match read_namespaced_pod_log (core_v1 c)
                   {| req_name := pod_name; req_namespace := namespace c;
                      req_container := container; req_follow := None;
                      req_tail_lines := Some lines |} with
           | Returned logs => logs
           | Raised e => "Error: " ++ exc_text e
           end.
Proof.
  unfold eval, get_pod_logs, try_except, call.
  destruct (read_namespaced_pod_log _ _); reflexivity.
Qed.

(** What [show_pod_logs] leaves in the panel when there is a container to
    read: the lines of the text the client returns, and nothing else. *)
Lemma show_pod_logs_panel (a : LazyK8sApp) (pod : V1Pod) (first : string) (rest : list string) :
  selected_pod a = Some pod ->
  get_container_names pod = first :: rest ->
  exists logs,
    eval (get_pod_logs (name (metadata pod)) (Py.or_else (selected_container a) first) 100)
         (k8s_client a) = Returned logs
    /\ logs_panel (exec show_pod_logs a) = map styled (present logs).
Proof.
  intros Hp Hc.
  destruct (get_pod_logs_returns (name (metadata pod))
              (Py.or_else (selected_container a) first) 100 (k8s_client a)) as [logs Hl].
  exists logs. split; [exact Hl|].
  unfold show_pod_logs.
  rewrite (exec_bind _ _ _ tt) by reflexivity.
  rewrite (exec_bind _ _ _ (exec logs_panel_clear a)) by reflexivity.
  change (exec get (exec logs_panel_clear a)) with (exec logs_panel_clear a).
  change (selected_pod (exec logs_panel_clear a)) with (selected_pod a).
  change (selected_container (exec logs_panel_clear a)) with (selected_container a).
  rewrite Hp, Hc.
  rewrite (exec_bind _ _ _ logs).
  - unfold write_logs. rewrite write_lines_panel.
    rewrite (keeps_client logs_panel) by reflexivity. reflexivity.
  - rewrite client_eval. exact Hl.
Qed.

Lemma classify_cases (line : string) :
  (classify line = Error <-> ci_occurs "ERROR" line \/ ci_occurs "FATAL" line)
  /\ (classify line = Warning <->
      ~ (ci_occurs "ERROR" line \/ ci_occurs "FATAL" line)
      /\ (ci_occurs "WARN" line \/ ci_occurs "WARNING" line))
  /\ (classify line = Normal <->
      ~ (ci_occurs "ERROR" line \/ ci_occurs "FATAL" line)
      /\ ~ (ci_occurs "WARN" line \/ ci_occurs "WARNING" line)).
Proof.
  rewrite <- !ci_occursb_iff, <- !orb_true_iff. unfold classify.
  destruct (ci_occursb "ERROR" line || ci_occursb "FATAL" line);
    destruct (ci_occursb "WARN" line || ci_occursb "WARNING" line);
    repeat split; intros; try discriminate; try tauto;
    match goal with
    | H : _ /\ _ |- _ => destruct H; try discriminate; try contradiction; try tauto
    end.
Qed.


(** ** The namespace search *)

Lemma ci_occursb_empty (ns : string) : ci_occursb "" ns = true.
Proof.
  apply ci_occursb_iff. exists "", "", ns. split; reflexivity.
Qed.


(** ** Failures of the cluster API *)

Lemma split_without_break (s : string) :
  Py.contains Py.NL s = false -> Py.split Py.LF s = [s].
Proof.
  induction s as [|c s IH]; intros H; [reflexivity|].
  rewrite contains_NL_cons in H. apply orb_false_elim in H as [Hc Hs].
  simpl. rewrite Hc, (IH Hs). reflexivity.
Qed.

Lemma classify_error_text (t : string) : classify ("Error: " ++ t) = Error.
Proof.
  apply classify_cases. left. exists "", "Error", (": " ++ t). split; reflexivity.
Qed.

(** C7, as the specification states it, fails: the cluster is down, and the
    failure to list the namespaces leaves [_refresh_namespaces], and the
    constructor that calls it, as the exception the API raised. *)
Lemma namespace_failure_is_raised :
  let c := Sample.client_on Sample.down in
  list_namespace (core_v1 c) = Raised Sample.unavailable
  /\ eval _refresh_namespaces c = Raised Sample.unavailable
  /\ fst (new_K8sClient Sample.down) = Raised Sample.unavailable
  /\ ~ (exists x, eval _refresh_namespaces c = Returned x).
Proof.
  cbv zeta. repeat split; try reflexivity.
  intros [x H]. vm_compute in H. discriminate H.
Qed.

(** C7, amended. An [ApiException] raised while the pods are listed is
    caught and the empty list is returned; one raised while the logs are
    read is caught and the text [Error: ] followed by the exception's text
    is returned, which the log panel shows as one error line when the
    exception's text has no line break (its first line is an error line in
    any case). One raised while the namespaces are listed is logged and
    raised again to the caller, the namespace list staying as it was. *)
Theorem api_failures_at_the_boundary
    (c : K8sClient) (pod_name container : string) (lines : Z) :
  eval get_pods c =
    Returned match list_namespaced_pod (core_v1 c) (namespace c) with
             | Returned l => l
             | Raised _ => []
             end
  /\ eval (get_pod_logs pod_name container lines) c =
       Returned match read_namespaced_pod_log (core_v1 c)
                        {| req_name := pod_name; req_namespace := namespace c;
                           req_container := container; req_follow := None;
                           req_tail_lines := Some lines |} with
                | Returned logs => logs
                | Raised e => "Error: " ++ exc_text e
                end
  /\ eval _refresh_namespaces c =
       match list_namespace (core_v1 c) with
       | Returned _ => Returned tt
       | Raised e => Raised e
       end
  /\ _namespace_list (exec _refresh_namespaces c) =
       match list_namespace (core_v1 c) with
       | Returned l => map (fun ns => name (ns_metadata ns)) l
       | Raised _ => _namespace_list c
       end
  /\ logger (exec _refresh_namespaces c) =
       match list_namespace (core_v1 c) with
       | Returned _ => logger c
       | Raised e => app (logger c) ["Failed to list namespaces: " ++ exc_text e]
       end
  /\ (forall e, Py.contains Py.NL (exc_text e) = false ->
        present ("Error: " ++ exc_text e) =
        [{| text := "Error: " ++ exc_text e; severity := Error |}])
  /\ (forall e, exists first rest,
        present ("Error: " ++ exc_text e) = {| text := first; severity := Error |} :: rest).
Proof.
  split; [apply get_pods_eval|]. split; [apply get_pod_logs_eval|].
  split; [|split; [|split; [|split]]].
  - unfold eval, _refresh_namespaces, try_except, bind, call; simpl.
    destruct (list_namespace (core_v1 c)); reflexivity.
  - unfold exec, _refresh_namespaces, try_except, bind, call; simpl.
    destruct (list_namespace (core_v1 c)); reflexivity.
  - unfold exec, _refresh_namespaces, try_except, bind, call; simpl.
    destruct (list_namespace (core_v1 c)); reflexivity.
  - intros e He. unfold present.
    assert (Hs : Py.contains Py.NL ("Error: " ++ exc_text e) = false).
    { simpl append. rewrite !contains_NL_cons. simpl. exact He. }
    rewrite (split_without_break _ Hs).
    change (filter Py.truthy ["Error: " ++ exc_text e]) with ["Error: " ++ exc_text e].
    cbn [map]. rewrite classify_error_text. reflexivity.
  - intros e. unfold present.
    pose proof (join_split (exc_text e)) as Hj.
    pose proof (split_not_nil Py.LF (exc_text e)) as Hne.
    assert (Hsp : exists h t, Py.split Py.LF ("Error: " ++ exc_text e)
                              = ("Error: " ++ h) :: t).
    { simpl append. simpl Py.split.
      destruct (Py.split Py.LF (exc_text e)) as [|h t]; [contradiction|].
      exists h, t. reflexivity. }
    destruct Hsp as [h [t Hsp]]. rewrite Hsp.
    change (filter Py.truthy (("Error: " ++ h) :: t))
      with (("Error: " ++ h) :: filter Py.truthy t).
    cbn [map]. rewrite classify_error_text. eexists _, _. reflexivity.
Qed.

Lemma api_failures_at_the_boundary_sample :
  Py.contains Py.NL (exc_text Sample.unavailable) = false
  /\ present ("Error: " ++ exc_text Sample.unavailable) =
     [{| text := "Error: (503) Service Unavailable"; severity := Error |}].
Proof.
  split; [reflexivity|].
  exact (proj1 (proj2 (proj2 (proj2 (proj2 (proj2
           (api_failures_at_the_boundary (Sample.client_on Sample.down) "web-1" "app" 100))))))
           Sample.unavailable eq_refl).
Defined.

(** ** Reading and streaming logs *)

(** C10. On a cluster that takes a request without [follow] as one with
    [follow] false, [stream_pod_logs] returns, for every pod name and
    container name, what [get_pod_logs] returns for 100 lines: the text of
    the cluster's answer, or [Error: ] followed by the exception's text when
    the cluster raises. Both ask for a tail of 100 lines, and neither asks
    to follow. *)
Theorem stream_pod_logs_as_get_pod_logs (c : K8sClient) (pod_name container : string) :
  follow_defaults_to_false (core_v1 c) ->
  eval (stream_pod_logs pod_name container) c
    = eval (get_pod_logs pod_name container 100) c
  /\ eval (stream_pod_logs pod_name container) c =
       Returned match read_namespaced_pod_log (core_v1 c)
                        {| req_name := pod_name; req_namespace := namespace c;
                           req_container := container; req_follow := Some false;
                           req_tail_lines := Some 100%Z |} with
                | Returned logs => logs
                | Raised e => "Error: " ++ exc_text e
                end
  /\ default_lines = 100%Z
  /\ namespace (exec (stream_pod_logs pod_name container) c)
     = namespace (exec (get_pod_logs pod_name container 100) c)
  /\ _namespace_list (exec (stream_pod_logs pod_name container) c)
     = _namespace_list (exec (get_pod_logs pod_name container 100) c).
Proof.
  intros Hf.
  assert (Hs : eval (stream_pod_logs pod_name container) c =
               Returned match read_namespaced_pod_log (core_v1 c)
                        {| req_name := pod_name; req_namespace := namespace c;
                           req_container := container; req_follow := Some false;
                           req_tail_lines := Some 100%Z |} with
                        | Returned logs => logs
                        | Raised e => "Error: " ++ exc_text e
                        end).
  { unfold eval, stream_pod_logs, try_except, call.
    destruct (read_namespaced_pod_log _ _); reflexivity. }
  split; [|split; [exact Hs|split; [reflexivity|]]].
  - rewrite Hs, get_pod_logs_eval, (Hf pod_name (namespace c) container (Some 100%Z)).
    reflexivity.
  - unfold exec, stream_pod_logs, get_pod_logs, try_except, call.
    rewrite (Hf pod_name (namespace c) container (Some 100%Z)).
    destruct (read_namespaced_pod_log _ _); split; reflexivity.
Qed.

Lemma stream_pod_logs_as_get_pod_logs_sample :
  follow_defaults_to_false (core_v1 (Sample.client_on Sample.idle))
  /\ eval (stream_pod_logs "web-1" "app") (Sample.client_on Sample.idle)
     = eval (get_pod_logs "web-1" "app" 100) (Sample.client_on Sample.idle).
Proof.
  assert (H : follow_defaults_to_false (core_v1 (Sample.client_on Sample.idle))).
  { intros p n k t. reflexivity. }
  split; [exact H|].
  exact (proj1 (stream_pod_logs_as_get_pod_logs (Sample.client_on Sample.idle)
                  "web-1" "app" H)).
Defined.

(** ** The cascade invariant *)

Section Kept.

Context {T : Type} (f : LazyK8sApp -> T).

Hypothesis f_client : forall c a, f (with_k8s_client c a) = f a.
Hypothesis f_pods : forall l a, f (with_pods l a) = f a.
Hypothesis f_pods_list : forall l a, f (with_pods_list l a) = f a.
Hypothesis f_info_panel : forall s a, f (with_info_panel s a) = f a.
Hypothesis f_logs_panel : forall l a, f (with_logs_panel l a) = f a.
Hypothesis f_status_bar : forall s a, f (with_status_bar s a) = f a.
Hypothesis f_console : forall l a, f (with_console l a) = f a.

Lemma refresh_pods_keeps : keeps f refresh_pods.
Proof.
  unfold refresh_pods, pods_list_clear, pods_list_append.
  apply keeps_bind; [apply keeps_client; exact f_client|intros l].
  apply keeps_bind; [apply keeps_modify; apply f_pods|intros _].
  apply keeps_bind; [apply keeps_modify; apply f_pods_list|intros _].
  apply keeps_for_each. intros pod. apply keeps_modify. intros a. apply f_pods_list.
Qed.

Lemma on_mount_keeps : keeps f on_mount.
Proof.
  unfold on_mount. apply keeps_bind; [|intros _; apply refresh_pods_keeps].
  apply refresh_status_bar_keeps; auto.
Qed.

Lemma action_view_logs_keeps : keeps f action_view_logs.
Proof.
  unfold action_view_logs. apply keeps_bind; [apply keeps_get|intros self].
  destruct (selected_pod self); [|apply keeps_ret].
  apply show_pod_logs_keeps; auto.
Qed.

Lemma action_open_shell_keeps run : keeps f (action_open_shell run).
Proof.
  unfold action_open_shell. apply keeps_bind; [apply keeps_get|intros self].
  destruct (selected_pod self) as [pod|]; [|apply keeps_ret].
  destruct (get_container_names pod); [apply keeps_ret|].
  apply keeps_bind; [apply keeps_client; exact f_client|intros ns].
  apply keeps_bind; [apply console_event_keeps; exact f_console|intros _].
  apply keeps_bind; [apply try_shells_keeps; exact f_console|intros _].
  apply keeps_bind; [apply console_event_keeps; exact f_console|intros _].
  apply after_shell_keeps; auto.
Qed.

End Kept.

(** A refresh with no pod selected does not touch the container list. *)
Lemma action_refresh_containers_list (a : LazyK8sApp) :
  selected_pod a = None ->
  containers_list (exec action_refresh a) = containers_list a.
Proof.
  intros Hp. unfold action_refresh.
  rewrite (exec_bind _ _ _ tt) by (apply returns_unit, refresh_pods_returns).
  rewrite (exec_bind _ _ _ (exec refresh_pods a)) by reflexivity.
  change (exec get (exec refresh_pods a)) with (exec refresh_pods a).
  rewrite refresh_pods_keeps_selected_pod, Hp.
  change (exec (ret tt) (exec refresh_pods a)) with (exec refresh_pods a).
  apply (refresh_pods_keeps containers_list); reflexivity.
Qed.

Lemma action_refresh_keeps_selected_pod : keeps selected_pod action_refresh.
Proof.
  intros a. rewrite (action_refresh_after_refresh_pods selected_pod) by reflexivity.
  apply refresh_pods_keeps_selected_pod.
Qed.

Lemma action_refresh_keeps_selected_container : keeps selected_container action_refresh.
Proof.
  intros a. rewrite (action_refresh_after_refresh_pods selected_container) by reflexivity.
  apply refresh_pods_keeps_selected_container.
Qed.

(** The selection handler: the three ways it can go. *)
Lemma on_list_view_selected_cases (event : Selected) (a : LazyK8sApp) :
  let a' := exec (on_list_view_selected event) a in
  (exists pod, selected_pod a' = Some pod)
  \/ (exists label container,
        list_view_id event = "containers-list"
        /\ item event = ContainerItem container label
        /\ selected_pod a' = selected_pod a)
  \/ a' = a.
Proof.
  cbv zeta. unfold on_list_view_selected.
  destruct (String.eqb (list_view_id event) "pods-list") eqn:E1.
  - destruct (item event) as [pod label| |]; [|right; right; reflexivity..].
    left. exists pod.
    rewrite (exec_bind _ _ _ tt) by reflexivity.
    rewrite (exec_bind _ _ _ tt) by reflexivity.
    rewrite (after_selection_keeps selected_pod) by reflexivity. reflexivity.
  - destruct (String.eqb (list_view_id event) "containers-list") eqn:E2;
      [|right; right; reflexivity].
    destruct (item event) as [|container label|]; [right; right; reflexivity| |right; right; reflexivity].
    right; left. exists label, container.
    apply String.eqb_eq in E2. repeat split; [exact E2|].
    rewrite (exec_bind _ _ _ tt) by reflexivity.
    rewrite (show_pod_logs_keeps selected_pod) by reflexivity. reflexivity.
Qed.

Lemma perform_guarded (a : LazyK8sApp) (act : Action) :
  selection_guarded a -> offered a act -> selection_guarded (exec (perform act) a).
Proof.
  unfold selection_guarded. intros Ha Ho.
  destruct act as [ | | | |run|event]; simpl perform.
  - rewrite (on_mount_keeps selected_pod), (on_mount_keeps selected_container),
      (on_mount_keeps containers_list) by reflexivity. exact Ha.
  - rewrite action_refresh_keeps_selected_pod, action_refresh_keeps_selected_container.
    intros Hp. rewrite (action_refresh_containers_list a Hp). exact (Ha Hp).
  - unfold action_change_namespace.
    rewrite (refresh_status_bar_keeps selected_pod),
      (refresh_status_bar_keeps selected_container),
      (refresh_status_bar_keeps containers_list) by reflexivity. exact Ha.
  - rewrite (action_view_logs_keeps selected_pod),
      (action_view_logs_keeps selected_container),
      (action_view_logs_keeps containers_list) by reflexivity. exact Ha.
  - rewrite (action_open_shell_keeps selected_pod),
      (action_open_shell_keeps selected_container),
      (action_open_shell_keeps containers_list) by reflexivity. exact Ha.
  - destruct (on_list_view_selected_cases event a)
      as [[pod Hs] | [[label [container [Hid [Hit Hs]]]] | Hs]].
    + rewrite Hs. discriminate.
    + rewrite Hs. intros Hp. destruct (Ha Hp) as [_ Hl].
      simpl in Ho. destruct Ho as [[Hid' _] | [_ Hin]].
      * rewrite Hid in Hid'. discriminate Hid'.
      * rewrite Hl in Hin. destruct Hin.
    + rewrite Hs. exact Ha.
Qed.

Lemma reachable_guarded (a : LazyK8sApp) : reachable a -> selection_guarded a.
Proof.
  induction 1 as [c | a act Hr IH Ho].
  - intros _. split; reflexivity.
  - apply perform_guarded; assumption.
Qed.

Lemma reachable_cascade (a : LazyK8sApp) : reachable a -> cascade_holds a = true.
Proof.
  intros Hr. pose proof (reachable_guarded a Hr) as Hg.
  unfold cascade_holds, selection_guarded in *.
  destruct (selected_pod a); [reflexivity|].
  destruct (Hg eq_refl) as [-> _]. reflexivity.
Qed.




(** * More properties of the code *)

(** ** The bullet of a pod *)

Lemma filter_length_le {A} (p : A -> bool) (l : list A) :
  (List.length (filter p l) <= List.length l)%nat.
Proof.
  induction l as [|x l IH]; simpl; [lia|]. destruct (p x); simpl; lia.
Qed.

Lemma filter_length_all {A} (p : A -> bool) (l : list A) :
  List.length (filter p l) = List.length l <-> forallb p l = true.
Proof.
  induction l as [|x l IH]; simpl; [tauto|].
  pose proof (filter_length_le p l) as Hle.
  destruct (p x); simpl.
  - rewrite <- IH. split; intros H; lia.
  - split; [intros H; lia | discriminate].
Qed.

(** The match on the phase, as two comparisons. *)
Lemma pod_icon_unfold (pod : V1Pod) :
  pod_icon pod =
  match phase (status pod) with
  | Some ph =>
      if String.eqb ph "Running" then
        if Nat.eqb (List.length (filter ready (statuses_of pod)))
                   (List.length (statuses_of pod))
           && Nat.ltb 0 (List.length (statuses_of pod))
        then green else yellow
      else if String.eqb ph "Pending" then yellow
      else red
  | None => red
  end.
Proof.
  unfold pod_icon, statuses_of.
  destruct (phase (status pod)) as [ph|]; [|reflexivity].
  repeat (destruct ph as [|[[] [] [] [] [] [] [] []] ph]; try reflexivity).
Qed.

(** X1. The bullet of a pod is green exactly when the pod's phase is
    Running, it reports at least one container status and every reported
    container is ready; it is red exactly when the phase is neither Running
    nor Pending (an absent phase included); it is yellow otherwise. *)
Theorem pod_icon_colour (pod : V1Pod) :
  (pod_icon pod = green <->
     phase (status pod) = Some "Running"
     /\ statuses_of pod <> []
     /\ forallb ready (statuses_of pod) = true)
  /\ (pod_icon pod = red <->
        phase (status pod) <> Some "Running" /\ phase (status pod) <> Some "Pending")
  /\ (pod_icon pod = yellow <->
        (phase (status pod) = Some "Pending"
         \/ (phase (status pod) = Some "Running"
             /\ (statuses_of pod = [] \/ forallb ready (statuses_of pod) = false)))).
Proof.
  rewrite pod_icon_unfold. unfold green, yellow, red.
  destruct (phase (status pod)) as [ph|];
    [|intuition (try discriminate; try congruence)].
  destruct (String.eqb_spec ph "Running") as [->|Hr].
  - pose proof (filter_length_all ready (statuses_of pod)) as Hall.
    destruct (statuses_of pod) as [|cs l] eqn:El.
    + simpl. intuition (try discriminate; try congruence).
    + change (Nat.ltb 0 (List.length (cs :: l))) with true. rewrite andb_true_r.
      destruct (Nat.eqb_spec (List.length (filter ready (cs :: l))) (List.length (cs :: l)))
        as [He|He].
      * apply Hall in He. rewrite He.
        intuition (try discriminate; try congruence).
      * assert (Hf : forallb ready (cs :: l) = false).
        { apply not_true_is_false. intros E. apply Hall in E. contradiction. }
        rewrite Hf. intuition (try discriminate; try congruence).
  - destruct (String.eqb_spec ph "Pending") as [->|Hp];
      intuition (try discriminate; try congruence).
Qed.

(** X2. The bullet agrees with the status line: it is green exactly when
    the phase is Running and the ready and total counts that
    [get_pod_status] prints are equal and positive. *)
Theorem pod_icon_agrees_with_status (pod : V1Pod) :
  pod_icon pod = green <->
  phase (status pod) = Some "Running"
  /\ sum_ready (pod_status_summary pod) = sum_total (pod_status_summary pod)
  /\ (0 < sum_total (pod_status_summary pod))%Z.
Proof.
  rewrite summary_unfold. cbv zeta. simpl.
  rewrite status_loop_ready. unfold ready_count. simpl.
  rewrite pod_icon_unfold.
  destruct (phase (status pod)) as [ph|].
  2:{ split; [discriminate | intros [H _]; discriminate H]. }
  destruct (String.eqb_spec ph "Running") as [->|Hr].
  - destruct (Nat.eqb_spec (List.length (filter ready (statuses_of pod)))
                           (List.length (statuses_of pod))) as [He|He];
      destruct (Nat.ltb_spec 0 (List.length (statuses_of pod))) as [Hl|Hl]; simpl;
      split; try discriminate; try (intros [_ [H1 H2]]; lia); intros _;
      repeat split; lia.
  - destruct (String.eqb ph "Pending");
      (split; [discriminate | intros [H _]; congruence]).
Qed.

(** ** The status line, again *)

Lemma ready_count_perm (l l' : list V1ContainerStatus) :
  Permutation l l' -> ready_count l = ready_count l'.
Proof.
  unfold ready_count. intros H. f_equal.
  induction H as [|x l l' H IH|x y l|l l' l'' H1 IH1 H2 IH2]; simpl.
  - reflexivity.
  - destruct (ready x); simpl; rewrite IH; reflexivity.
  - destruct (ready x); destruct (ready y); reflexivity.
  - rewrite IH1. exact IH2.
Qed.

Lemma restart_sum_perm (l l' : list V1ContainerStatus) :
  Permutation l l' -> restart_sum l = restart_sum l'.
Proof.
  unfold restart_sum. intros H.
  induction H as [|x l l' H IH|x y l|l l' l'' H1 IH1 H2 IH2]; simpl.
  - reflexivity.
  - rewrite IH. reflexivity.
  - lia.
  - rewrite IH1. exact IH2.
Qed.

(** X3. When no container status carries a reason, the phase of the status
    line is the pod's own reason if it has a non-empty one and the raw phase
    otherwise; a pod that reports no container status at all gets that
    phase followed by [(0/0) Restarts:0]. *)
Theorem status_without_reasons (pod : V1Pod) :
  carried_reasons (statuses_of pod) = [] ->
  let ph := if Py.truthy_opt (reason (status pod))
            then reason (status pod) else phase (status pod) in
  sum_phase (pod_status_summary pod) = ph
  /\ (statuses_of pod = [] ->
      get_pod_status pod = Py.str_opt ph ++ " (0/0) Restarts:0").
Proof.
  intros Hn. cbv zeta. split.
  - rewrite summary_unfold. cbv zeta. simpl. rewrite status_loop_phase, Hn. reflexivity.
  - intros He. unfold get_pod_status, format_status.
    rewrite summary_unfold. cbv zeta. rewrite He. reflexivity.
Qed.

Lemma status_without_reasons_sample :
  carried_reasons (statuses_of Sample.web1) = []
  /\ sum_phase (pod_status_summary Sample.web1) = Some "Running".
Proof.
  split; [reflexivity|].
  exact (proj1 (status_without_reasons Sample.web1 eq_refl)).
Defined.

(** X4. The ready, total and restart counts of the status line do not
    depend on the order in which the container statuses are reported: two
    pods whose status lists are permutations of each other get the same
    counts. *)
Theorem status_counts_ignore_order (pod pod' : V1Pod) :
  Permutation (statuses_of pod) (statuses_of pod') ->
  sum_ready (pod_status_summary pod) = sum_ready (pod_status_summary pod')
  /\ sum_total (pod_status_summary pod) = sum_total (pod_status_summary pod')
  /\ sum_restarts (pod_status_summary pod) = sum_restarts (pod_status_summary pod').
Proof.
  intros H. rewrite !summary_unfold. cbv zeta. simpl.
  rewrite !status_loop_ready, !status_loop_restarts. simpl.
  rewrite (ready_count_perm _ _ H), (restart_sum_perm _ _ H),
    (Permutation_length H). repeat split.
Qed.

Lemma status_counts_ignore_order_sample :
  Permutation (statuses_of Sample.web1) (statuses_of Case.web1_reordered)
  /\ statuses_of Sample.web1 <> statuses_of Case.web1_reordered
  /\ sum_restarts (pod_status_summary Sample.web1)
     = sum_restarts (pod_status_summary Case.web1_reordered).
Proof.
  assert (H : Permutation (statuses_of Sample.web1) (statuses_of Case.web1_reordered)).
  { apply Permutation_rev. }
  split; [exact H|]. split; [discriminate|].
  exact (proj2 (proj2 (status_counts_ignore_order Sample.web1 Case.web1_reordered H))).
Defined.

(** ** What each redraw leaves in its widget *)

Lemma exec_then {S B} (m : M S unit) (k : M S B) (s : S) :
  returns m -> exec (m ;; k) s = exec k (exec m s).
Proof. intros Hm. apply exec_bind with (x := tt). apply returns_unit, Hm. Qed.

Lemma exec_get_bind {S B} (k : S -> M S B) (s : S) :
  exec (self <- get ;; k self) s = exec (k s) s.
Proof. reflexivity. Qed.

Lemma pods_list_appended (l : list V1Pod) : forall a,
  pods_list (exec (for_each l (fun pod => pods_list_append (new_PodItem pod))) a)
  = (pods_list a ++ map new_PodItem l)%list.
Proof.
  induction l as [|pod l IH]; intros a.
  - symmetry. apply app_nil_r.
  - change (for_each (pod :: l) (fun pod => pods_list_append (new_PodItem pod)))
      with (pods_list_append (new_PodItem pod) ;;
            for_each l (fun pod => pods_list_append (new_PodItem pod))).
    rewrite exec_then by apply returns_modify.
    rewrite IH. simpl. rewrite <- app_assoc. reflexivity.
Qed.

Lemma containers_list_appended (l : list string) : forall a,
  containers_list
    (exec (for_each l (fun c => containers_list_append (new_ContainerItem c))) a)
  = (containers_list a ++ map new_ContainerItem l)%list.
Proof.
  induction l as [|c l IH]; intros a.
  - symmetry. apply app_nil_r.
  - change (for_each (c :: l) (fun c => containers_list_append (new_ContainerItem c)))
      with (containers_list_append (new_ContainerItem c) ;;
            for_each l (fun c => containers_list_append (new_ContainerItem c))).
    rewrite exec_then by apply returns_modify.
    rewrite IH. simpl. rewrite <- app_assoc. reflexivity.
Qed.

Lemma refresh_pods_pods_list (a : LazyK8sApp) :
  pods_list (exec refresh_pods a)
  = map new_PodItem (listed_pods (core_v1 (k8s_client a)) (namespace (k8s_client a))).
Proof.
  unfold refresh_pods.
  rewrite (exec_bind _ _ _ _ (eq_trans (client_eval _ _) (get_pods_eval _))).
  fold (listed_pods (core_v1 (k8s_client a)) (namespace (k8s_client a))).
  rewrite exec_then by apply returns_modify.
  unfold pods_list_clear. rewrite exec_then by apply returns_modify.
  rewrite pods_list_appended. reflexivity.
Qed.

Lemma refresh_pods_listed (a : LazyK8sApp) :
  pods (exec refresh_pods a)
  = listed_pods (core_v1 (k8s_client a)) (namespace (k8s_client a)).
Proof. apply refresh_pods_pods. Qed.

Lemma refresh_containers_list (a : LazyK8sApp) :
  containers_list (exec refresh_containers a) = containers_of_selection a.
Proof.
  unfold refresh_containers, containers_list_clear, containers_of_selection.
  rewrite exec_then by apply returns_modify.
  rewrite exec_get_bind.
  change (selected_pod (exec (modify (with_containers_list [])) a)) with (selected_pod a).
  destruct (selected_pod a) as [pod|]; [|reflexivity].
  rewrite containers_list_appended. reflexivity.
Qed.

Lemma info_lines_fold (l : list V1Container) : forall init,
  fold_left
    (fun acc container =>
       app acc ["[cyan]●[/] " ++ container_name container;
                "  [dim]" ++ image container ++ "[/]"])
    l init
  = app init (flat_map (fun c => ["[cyan]●[/] " ++ container_name c;
                                  "  [dim]" ++ image c ++ "[/]"]) l).
Proof.
  induction l as [|c l IH]; intros init; simpl.
  - symmetry. apply app_nil_r.
  - rewrite IH, <- app_assoc. reflexivity.
Qed.

Lemma show_pod_info_panel (a : LazyK8sApp) :
  info_panel (exec show_pod_info a) = shown_info a.
Proof.
  unfold show_pod_info, shown_info. rewrite exec_get_bind.
  destruct (selected_pod a) as [pod|]; [|reflexivity].
  unfold info_lines. rewrite <- info_lines_fold. reflexivity.
Qed.

Lemma show_pod_logs_shown (a : LazyK8sApp) :
  logs_panel (exec show_pod_logs a) = shown_logs a.
Proof.
  unfold show_pod_logs, shown_logs, logs_panel_clear.
  rewrite exec_then by apply returns_modify.
  rewrite exec_get_bind.
  change (selected_pod (exec (modify (with_logs_panel [])) a)) with (selected_pod a).
  change (selected_container (exec (modify (with_logs_panel [])) a))
    with (selected_container a).
  destruct (selected_pod a) as [pod|]; [|reflexivity].
  destruct (get_container_names pod) as [|first rest]; [reflexivity|].
  rewrite (exec_bind _ _ _ _ (eq_trans (client_eval _ _) (get_pod_logs_eval _ _ _ _))).
  unfold write_logs. rewrite write_lines_panel.
  rewrite (keeps_client logs_panel) by reflexivity. reflexivity.
Qed.

(** The actions, as a sequence of redraws. *)

Lemma action_refresh_unselected (a : LazyK8sApp) :
  selected_pod a = None -> exec action_refresh a = exec refresh_pods a.
Proof.
  intros Hp. unfold action_refresh.
  rewrite exec_then by apply refresh_pods_returns.
  rewrite exec_get_bind, refresh_pods_keeps_selected_pod, Hp. reflexivity.
Qed.

Lemma action_refresh_selected (a : LazyK8sApp) (pod : V1Pod) :
  selected_pod a = Some pod ->
  exec action_refresh a
  = exec show_pod_logs (exec show_pod_info (exec refresh_containers (exec refresh_pods a))).
Proof.
  intros Hp. unfold action_refresh.
  rewrite exec_then by apply refresh_pods_returns.
  rewrite exec_get_bind, refresh_pods_keeps_selected_pod, Hp.
  rewrite exec_then by apply refresh_containers_returns.
  rewrite exec_then by apply show_pod_info_returns.
  reflexivity.
Qed.

Lemma select_pod_exec (pod : V1Pod) (label : string) (a : LazyK8sApp) :
  exec (on_list_view_selected (pods_list_event (PodItem pod label))) a
  = exec show_pod_logs
      (exec show_pod_info
         (exec refresh_containers
            (with_selected_container None (with_selected_pod (Some pod) a)))).
Proof.
  unfold on_list_view_selected, pods_list_event; simpl.
  rewrite exec_then by apply returns_modify.
  rewrite exec_then by apply returns_modify.
  rewrite exec_then by apply refresh_containers_returns.
  rewrite exec_then by apply show_pod_info_returns.
  reflexivity.
Qed.

Lemma select_container_exec (c label : string) (a : LazyK8sApp) :
  exec (on_list_view_selected (containers_list_event (ContainerItem c label))) a
  = exec show_pod_logs (with_selected_container (Some c) a).
Proof.
  unfold on_list_view_selected, containers_list_event; simpl.
  rewrite exec_then by apply returns_modify. reflexivity.
Qed.

(** Without a pod that has a container, the shell action does nothing. *)
Lemma action_open_shell_idle run (a : LazyK8sApp) :
  match selected_pod a with
  | Some pod => get_container_names pod = []
  | None => True
  end ->
  action_open_shell run a = (Returned tt, a).
Proof.
  intros H. unfold action_open_shell, bind, get.
  destruct (selected_pod a) as [pod|]; [|reflexivity].
  rewrite H. reflexivity.
Qed.

(** ** What the actions do to the client *)

Lemma get_pods_blind {T} (g : K8sClient -> T) :
  log_blind g -> forall c, g (exec get_pods c) = g c.
Proof.
  intros Hg c. unfold exec, get_pods, try_except, call.
  destruct (list_namespaced_pod (core_v1 c) (namespace c)); [reflexivity|].
  simpl. apply Hg.
Qed.

Lemma get_pod_logs_blind {T} (g : K8sClient -> T) pod_name container lines :
  log_blind g -> forall c, g (exec (get_pod_logs pod_name container lines) c) = g c.
Proof.
  intros Hg c. unfold exec, get_pod_logs, try_except, call.
  destruct (read_namespaced_pod_log _ _); [reflexivity|].
  simpl. apply Hg.
Qed.

Lemma get_cluster_info_blind {T} (g : K8sClient -> T) :
  log_blind g -> forall c, g (exec get_cluster_info c) = g c.
Proof.
  intros Hg c. unfold exec, get_cluster_info, try_except, bind, call, ret.
  destruct (active_context_cluster (core_v1 c));
    [destruct (git_version (core_v1 c))|]; try reflexivity; simpl; apply Hg.
Qed.

Lemma keeps_client_field {T A} (g : K8sClient -> T) (m : K8s A) :
  (forall c, g (exec m c) = g c) -> keeps (fun a => g (k8s_client a)) (client m).
Proof.
  intros Hm a. specialize (Hm (k8s_client a)).
  unfold exec, client, zoom in *. destruct (m (k8s_client a)) as [r c]. exact Hm.
Qed.

Section Blind.

Context {T : Type} (g : K8sClient -> T).
Hypothesis Hg : log_blind g.

Ltac blind_step :=
  first
    [ apply keeps_ret
    | apply keeps_get
    | apply keeps_modify; intros; reflexivity
    | apply (keeps_client_field g); intros;
        first [ apply get_pods_blind | apply get_pod_logs_blind
              | apply get_cluster_info_blind | reflexivity ]; exact Hg
    | apply (try_shells_keeps (fun a => g (k8s_client a))); intros; reflexivity
    | apply keeps_for_each; intros
    | apply keeps_bind; [|intros]
    | match goal with
      | |- keeps _ (match ?x with _ => _ end) => destruct x
      | |- keeps _ (if ?b then _ else _) => destruct b
      end ].

Lemma refresh_pods_blind : keeps (fun a => g (k8s_client a)) refresh_pods.
Proof. unfold refresh_pods, pods_list_clear, pods_list_append. repeat blind_step. Qed.

Lemma show_pod_logs_blind : keeps (fun a => g (k8s_client a)) show_pod_logs.
Proof.
  unfold show_pod_logs, logs_panel_clear, logs_panel_write, write_logs, write_log_line.
  repeat blind_step.
Qed.

Lemma refresh_status_bar_blind : keeps (fun a => g (k8s_client a)) refresh_status_bar.
Proof. unfold refresh_status_bar, status_bar_update. repeat blind_step. Qed.

Lemma perform_blind (act : Action) : keeps (fun a => g (k8s_client a)) (perform act).
Proof.
  destruct act; simpl perform;
    unfold on_mount, action_refresh, action_change_namespace, action_view_logs,
      action_open_shell, on_list_view_selected, refresh_status_bar, refresh_pods,
      refresh_containers, show_pod_info, show_pod_logs, write_logs, write_log_line,
      pods_list_clear, pods_list_append, containers_list_clear, containers_list_append,
      info_panel_update, logs_panel_clear, logs_panel_write, status_bar_update,
      console_event;
    repeat blind_step.
Qed.

End Blind.

Lemma on_mount_returns : returns on_mount.
Proof.
  unfold on_mount.
  apply returns_bind; [apply refresh_status_bar_returns|intros _].
  apply refresh_pods_returns.
Qed.

Lemma action_view_logs_returns : returns action_view_logs.
Proof.
  unfold action_view_logs. apply returns_bind; [apply returns_get|intros self].
  destruct (selected_pod self); [apply show_pod_logs_returns|apply returns_ret].
Qed.

Lemma perform_keeps_selection (act : Action) (a : LazyK8sApp) :
  match act with
  | Select _ => True
  | _ => selected_pod (exec (perform act) a) = selected_pod a
         /\ selected_container (exec (perform act) a) = selected_container a
  end.
Proof.
  destruct act as [ | | | |run|event]; simpl perform; [| | | | |exact I]; split.
  - apply (on_mount_keeps selected_pod); reflexivity.
  - apply (on_mount_keeps selected_container); reflexivity.
  - apply action_refresh_keeps_selected_pod.
  - apply action_refresh_keeps_selected_container.
  - apply (refresh_status_bar_keeps selected_pod); reflexivity.
  - apply (refresh_status_bar_keeps selected_container); reflexivity.
  - apply (action_view_logs_keeps selected_pod); reflexivity.
  - apply (action_view_logs_keeps selected_container); reflexivity.
  - apply (action_open_shell_keeps selected_pod); reflexivity.
  - apply (action_open_shell_keeps selected_container); reflexivity.
Qed.


(** X6. Only a list selection changes the selection: mounting, refreshing,
    the namespace action, viewing logs and opening a shell leave the
    selected pod and the selected container as they were. And no action at
    all clears the selected pod: if none is selected afterwards, none was
    selected before. *)
Theorem selection_changes_only_by_selecting (act : Action) (a : LazyK8sApp) :
  match act with
  | Select _ => True
  | _ => selected_pod (exec (perform act) a) = selected_pod a
         /\ selected_container (exec (perform act) a) = selected_container a
  end
  /\ (selected_pod (exec (perform act) a) = None -> selected_pod a = None).
Proof.
  split; [apply perform_keeps_selection|].
  pose proof (perform_keeps_selection act a) as H.
  destruct act as [ | | | |run|event]; [destruct H as [-> _]; tauto ..|].
  simpl perform. intros Hn.
  destruct (on_list_view_selected_cases event a)
    as [[pod Hs] | [[label [container [_ [_ Hs]]]] | Hs]].
  - rewrite Hs in Hn. discriminate Hn.
  - rewrite <- Hs. exact Hn.
  - rewrite <- Hs. exact Hn.
Qed.

(** X7. No action of the application changes the namespace the client
    works in, the cached namespace list, the cluster the client talks to or
    the application's own [current_namespace]. *)
Theorem actions_keep_namespace (act : Action) (a : LazyK8sApp) :
  let a' := exec (perform act) a in
  namespace (k8s_client a') = namespace (k8s_client a)
  /\ _namespace_list (k8s_client a') = _namespace_list (k8s_client a)
  /\ core_v1 (k8s_client a') = core_v1 (k8s_client a)
  /\ current_namespace a' = current_namespace a.
Proof.
  cbv zeta. repeat split.
  - apply (perform_blind namespace). intros c l. reflexivity.
  - apply (perform_blind _namespace_list). intros c l. reflexivity.
  - apply (perform_blind core_v1). intros c l. reflexivity.
  - destruct act as [ | | | |run|event]; simpl perform.
    + apply (on_mount_keeps current_namespace); reflexivity.
    + rewrite (action_refresh_after_refresh_pods current_namespace) by reflexivity.
      apply (refresh_pods_keeps current_namespace); reflexivity.
    + apply (refresh_status_bar_keeps current_namespace); reflexivity.
    + apply (action_view_logs_keeps current_namespace); reflexivity.
    + apply (action_open_shell_keeps current_namespace); reflexivity.
    + unfold on_list_view_selected.
      destruct (String.eqb _ "pods-list"); [|destruct (String.eqb _ "containers-list")];
        try reflexivity; destruct (item event); try reflexivity.
      * rewrite exec_then by apply returns_modify.
        rewrite exec_then by apply returns_modify.
        rewrite (after_selection_keeps current_namespace) by reflexivity. reflexivity.
      * rewrite exec_then by apply returns_modify.
        rewrite (show_pod_logs_keeps current_namespace) by reflexivity. reflexivity.
Qed.

(** ** What the list views show *)

Lemma refresh_pods_shown (a : LazyK8sApp) : pods_shown (exec refresh_pods a).
Proof.
  unfold pods_shown. rewrite refresh_pods_pods_list, refresh_pods_listed. reflexivity.
Qed.

Lemma pods_shown_kept (a a' : LazyK8sApp) :
  pods a' = pods a -> pods_list a' = pods_list a -> pods_shown a -> pods_shown a'.
Proof. unfold pods_shown. intros -> ->. tauto. Qed.

Lemma after_shell_pods_shown (a : LazyK8sApp) :
  pods_shown (exec (refresh_pods ;;
                    self' <- get ;;
                    match selected_pod self' with
                    | Some _ => show_pod_info ;; show_pod_logs
                    | None => ret tt
                    end) a).
Proof.
  rewrite exec_then by apply refresh_pods_returns.
  rewrite exec_get_bind.
  destruct (selected_pod (exec refresh_pods a)).
  - rewrite exec_then by apply show_pod_info_returns.
    apply (pods_shown_kept (exec refresh_pods a)); [| |apply refresh_pods_shown].
    + rewrite (show_pod_logs_keeps pods), (show_pod_info_keeps pods) by reflexivity.
      reflexivity.
    + rewrite (show_pod_logs_keeps pods_list), (show_pod_info_keeps pods_list)
        by reflexivity.
      reflexivity.
  - apply refresh_pods_shown.
Qed.

(** A selection touches the selection, the container list and the two
    panels, and nothing else. *)
Lemma select_keeps {T} (f : LazyK8sApp -> T) (event : Selected) :
  (forall c a, f (with_k8s_client c a) = f a) ->
  (forall p a, f (with_selected_pod p a) = f a) ->
  (forall c a, f (with_selected_container c a) = f a) ->
  (forall l a, f (with_containers_list l a) = f a) ->
  (forall s a, f (with_info_panel s a) = f a) ->
  (forall l a, f (with_logs_panel l a) = f a) ->
  keeps f (on_list_view_selected event).
Proof.
  intros H1 H2 H3 H4 H5 H6. unfold on_list_view_selected.
  destruct (String.eqb _ "pods-list"); [|destruct (String.eqb _ "containers-list")];
    try apply keeps_ret; destruct (item event); try apply keeps_ret.
  - apply keeps_bind; [apply keeps_modify; apply H2|intros _].
    apply keeps_bind; [apply keeps_modify; apply H3|intros _].
    apply after_selection_keeps; assumption.
  - apply keeps_bind; [apply keeps_modify; apply H3|intros _].
    apply show_pod_logs_keeps; assumption.
Qed.

Lemma refresh_status_bar_frame {T} (f : LazyK8sApp -> T) :
  (forall c a, f (with_k8s_client c a) = f a) ->
  (forall s a, f (with_status_bar s a) = f a) ->
  keeps f refresh_status_bar.
Proof.
  intros H1 H2. unfold refresh_status_bar, status_bar_update.
  apply keeps_bind; [apply keeps_client; exact H1|intros hv].
  apply keeps_bind; [apply keeps_client; exact H1|intros ns].
  apply keeps_modify. apply H2.
Qed.

Lemma perform_pods_shown (act : Action) (a : LazyK8sApp) :
  pods_shown a -> pods_shown (exec (perform act) a).
Proof.
  intros Ha. destruct act as [ | | | |run|event]; simpl perform.
  - unfold on_mount. rewrite exec_then by apply refresh_status_bar_returns.
    apply refresh_pods_shown.
  - apply (pods_shown_kept (exec refresh_pods a)); [| |apply refresh_pods_shown].
    + apply (action_refresh_after_refresh_pods pods); reflexivity.
    + apply (action_refresh_after_refresh_pods pods_list); reflexivity.
  - apply (pods_shown_kept a); [| |exact Ha].
    + apply (refresh_status_bar_frame pods); reflexivity.
    + apply (refresh_status_bar_frame pods_list); reflexivity.
  - apply (pods_shown_kept a); [| |exact Ha].
    + apply (action_view_logs_keeps pods); reflexivity.
    + apply (action_view_logs_keeps pods_list); reflexivity.
  - destruct (selected_pod a) as [pod|] eqn:Hp.
    + destruct (get_container_names pod) as [|first rest] eqn:Hc.
      * unfold exec. rewrite action_open_shell_idle; [exact Ha|]. rewrite Hp. exact Hc.
      * rewrite (action_open_shell_unfold run a pod first rest Hp Hc). cbv zeta.
        apply after_shell_pods_shown.
    + unfold exec. rewrite action_open_shell_idle; [exact Ha|]. rewrite Hp. exact I.
  - apply (pods_shown_kept a); [| |exact Ha].
    + apply (select_keeps pods); reflexivity.
    + apply (select_keeps pods_list); reflexivity.
Qed.

Lemma session_reachable : reachable Sample.session.
Proof.
  unfold Sample.session.
  apply reachable_step; [apply reachable_step; [apply reachable_step|]|].
  - apply reachable_new.
  - exact I.
  - left. split; [reflexivity|]. left. reflexivity.
  - right. split; [reflexivity|]. left. reflexivity.
Qed.

(** X8. The pod list view always shows the cached pods: after any refresh
    of the pod list, and in every state the application can be in, the
    view holds one item per cached pod, in the order of the cache. *)
Theorem pod_list_shows_cache (a : LazyK8sApp) :
  reachable a ->
  pods_list a = map new_PodItem (pods a)
  /\ (forall b : LazyK8sApp,
        pods_list (exec refresh_pods b) = map new_PodItem (pods (exec refresh_pods b))).
Proof.
  intros Hr. split; [|exact refresh_pods_shown].
  induction Hr as [c | a act Hr IH Ho].
  - reflexivity.
  - apply perform_pods_shown. exact IH.
Qed.

Lemma pod_list_shows_cache_sample :
  reachable Sample.session
  /\ pods_list Sample.session = [new_PodItem Sample.web1].
Proof.
  split; [exact session_reachable|].
  exact (proj1 (pod_list_shows_cache Sample.session session_reachable)).
Defined.

Lemma containers_of_selection_kept (a a' : LazyK8sApp) :
  selected_pod a' = selected_pod a -> containers_of_selection a' = containers_of_selection a.
Proof. unfold containers_of_selection. intros ->. reflexivity. Qed.

Lemma selection_consistent_kept (a a' : LazyK8sApp) :
  selected_pod a' = selected_pod a ->
  selected_container a' = selected_container a ->
  containers_list a' = containers_list a ->
  containers_list a = containers_of_selection a /\ container_of_selected_pod a ->
  containers_list a' = containers_of_selection a' /\ container_of_selected_pod a'.
Proof.
  unfold container_of_selected_pod. intros Hp Hc Hl [H1 H2].
  rewrite Hl, (containers_of_selection_kept a a' Hp), Hp, Hc. split; assumption.
Qed.

Lemma action_refresh_containers_shown (a : LazyK8sApp) (pod : V1Pod) :
  selected_pod a = Some pod ->
  containers_list (exec action_refresh a) = containers_of_selection a.
Proof.
  intros Hp. rewrite (action_refresh_selected a pod Hp).
  rewrite (show_pod_logs_keeps containers_list) by reflexivity.
  rewrite (show_pod_info_keeps containers_list) by reflexivity.
  rewrite refresh_containers_list.
  apply containers_of_selection_kept, refresh_pods_keeps_selected_pod.
Qed.

Lemma perform_selection_consistent (act : Action) (a : LazyK8sApp) :
  containers_list a = containers_of_selection a /\ container_of_selected_pod a ->
  offered a act ->
  containers_list (exec (perform act) a) = containers_of_selection (exec (perform act) a)
  /\ container_of_selected_pod (exec (perform act) a).
Proof.
  intros Ha Ho. destruct act as [ | | | |run|[id it]]; simpl perform.
  - apply (selection_consistent_kept a); [| | |exact Ha].
    + apply (on_mount_keeps selected_pod); reflexivity.
    + apply (on_mount_keeps selected_container); reflexivity.
    + apply (on_mount_keeps containers_list); reflexivity.
  - apply (selection_consistent_kept a); [| | |exact Ha].
    + apply action_refresh_keeps_selected_pod.
    + apply action_refresh_keeps_selected_container.
    + destruct (selected_pod a) as [pod|] eqn:Hp.
      * rewrite (action_refresh_containers_shown a pod Hp). symmetry. apply Ha.
      * apply action_refresh_containers_list. exact Hp.
  - apply (selection_consistent_kept a); [| | |exact Ha].
    + apply (refresh_status_bar_frame selected_pod); reflexivity.
    + apply (refresh_status_bar_frame selected_container); reflexivity.
    + apply (refresh_status_bar_frame containers_list); reflexivity.
  - apply (selection_consistent_kept a); [| | |exact Ha].
    + apply (action_view_logs_keeps selected_pod); reflexivity.
    + apply (action_view_logs_keeps selected_container); reflexivity.
    + apply (action_view_logs_keeps containers_list); reflexivity.
  - apply (selection_consistent_kept a); [| | |exact Ha].
    + apply (action_open_shell_keeps selected_pod); reflexivity.
    + apply (action_open_shell_keeps selected_container); reflexivity.
    + apply (action_open_shell_keeps containers_list); reflexivity.
  - destruct (String.eqb_spec id "pods-list") as [->|Hid].
    + destruct it as [pod label|c label|].
      * change {| list_view_id := "pods-list"; item := PodItem pod label |}
          with (pods_list_event (PodItem pod label)).
        rewrite select_pod_exec.
        set (b := with_selected_container None (with_selected_pod (Some pod) a)).
        assert (Hp : selected_pod (exec show_pod_logs (exec show_pod_info (exec refresh_containers b)))
                     = Some pod).
        { rewrite (show_pod_logs_keeps selected_pod), (show_pod_info_keeps selected_pod),
            (refresh_containers_keeps selected_pod) by reflexivity. reflexivity. }
        assert (Hc : selected_container
                       (exec show_pod_logs (exec show_pod_info (exec refresh_containers b)))
                     = None).
        { rewrite (show_pod_logs_keeps selected_container),
            (show_pod_info_keeps selected_container),
            (refresh_containers_keeps selected_container) by reflexivity. reflexivity. }
        split.
        -- rewrite (show_pod_logs_keeps containers_list),
             (show_pod_info_keeps containers_list) by reflexivity.
           rewrite refresh_containers_list.
           unfold containers_of_selection. rewrite Hp. reflexivity.
        -- intros c Hs. rewrite Hc in Hs. discriminate Hs.
      * exact Ha.
      * exact Ha.
    + destruct (String.eqb_spec id "containers-list") as [->|Hid'].
      * destruct it as [pod label|c label|]; [exact Ha| |exact Ha].
        change {| list_view_id := "containers-list"; item := ContainerItem c label |}
          with (containers_list_event (ContainerItem c label)).
        rewrite select_container_exec.
        set (b := with_selected_container (Some c) a).
        assert (Hp : selected_pod (exec show_pod_logs b) = selected_pod a).
        { rewrite (show_pod_logs_keeps selected_pod) by reflexivity. reflexivity. }
        assert (Hc : selected_container (exec show_pod_logs b) = Some c).
        { rewrite (show_pod_logs_keeps selected_container) by reflexivity. reflexivity. }
        assert (Hl : containers_list (exec show_pod_logs b) = containers_list a).
        { rewrite (show_pod_logs_keeps containers_list) by reflexivity. reflexivity. }
        destruct Ha as [Ha1 Ha2]. split.
        -- rewrite Hl, (containers_of_selection_kept a _ Hp). exact Ha1.
        -- intros c' Hs. rewrite Hc in Hs. injection Hs as <-. rewrite Hp.
           simpl in Ho. destruct Ho as [[Hx _] | [_ Hin]]; [discriminate Hx|].
           rewrite Ha1 in Hin. unfold containers_of_selection in Hin.
           destruct (selected_pod a) as [pod|]; [|destruct Hin].
           exists pod. split; [reflexivity|].
           apply in_map_iff in Hin. destruct Hin as [x [Hx Hin]].
           injection Hx as -> _. exact Hin.
      * unfold on_list_view_selected. simpl.
        destruct (String.eqb_spec id "pods-list") as [E|_]; [contradiction|].
        destruct (String.eqb_spec id "containers-list") as [E|_]; [contradiction|].
        exact Ha.
Qed.

Lemma reachable_selection_consistent (a : LazyK8sApp) :
  reachable a ->
  containers_list a = containers_of_selection a /\ container_of_selected_pod a.
Proof.
  induction 1 as [c | a act Hr IH Ho].
  - split; [reflexivity|]. intros c' H. discriminate H.
  - apply perform_selection_consistent; assumption.
Qed.

(** X9. The container list view always shows the containers of the
    selected pod: in every state the application can be in, it holds one
    item per container of the selected pod, in declared order, and nothing
    when no pod is selected. *)
Theorem container_list_shows_selected_pod (a : LazyK8sApp) :
  reachable a ->
  containers_list a =
  match selected_pod a with
  | Some pod => map new_ContainerItem (get_container_names pod)
  | None => []
  end.
Proof. intros Hr. apply (reachable_selection_consistent a Hr). Qed.

Lemma container_list_shows_selected_pod_sample :
  reachable Sample.session
  /\ containers_list Sample.session = [new_ContainerItem "app"; new_ContainerItem "sidecar"].
Proof.
  split; [exact session_reachable|].
  exact (container_list_shows_selected_pod Sample.session session_reachable).
Defined.

(** X10. In every state the application can be in, the selected container,
    when there is one, is a container of the selected pod (and so a pod is
    selected). *)
Theorem selected_container_belongs_to_pod (a : LazyK8sApp) (c : string) :
  reachable a ->
  selected_container a = Some c ->
  exists pod, selected_pod a = Some pod /\ In c (get_container_names pod).
Proof. intros Hr. apply (reachable_selection_consistent a Hr). Qed.

Lemma selected_container_belongs_to_pod_sample :
  reachable Sample.session
  /\ selected_container Sample.session = Some "app"
  /\ exists pod, selected_pod Sample.session = Some pod /\ In "app" (get_container_names pod).
Proof.
  split; [exact session_reachable|]. split; [reflexivity|].
  exact (selected_container_belongs_to_pod Sample.session "app" session_reachable eq_refl).
Defined.

(** ** What the panels show *)

Lemma shown_logs_same (a b : LazyK8sApp) :
  selected_pod b = selected_pod a ->
  selected_container b = selected_container a ->
  core_v1 (k8s_client b) = core_v1 (k8s_client a) ->
  namespace (k8s_client b) = namespace (k8s_client a) ->
  shown_logs b = shown_logs a.
Proof.
  unfold shown_logs, log_request. intros -> -> -> ->. reflexivity.
Qed.

Lemma shown_info_same (a b : LazyK8sApp) :
  selected_pod b = selected_pod a -> shown_info b = shown_info a.
Proof. unfold shown_info. intros ->. reflexivity. Qed.

Lemma show_pod_logs_client_idle (a : LazyK8sApp) :
  match selected_pod a with
  | Some pod => get_container_names pod = []
  | None => True
  end ->
  k8s_client (exec show_pod_logs a) = k8s_client a.
Proof.
  intros H. unfold show_pod_logs, logs_panel_clear.
  rewrite exec_then by apply returns_modify. rewrite exec_get_bind.
  change (selected_pod (exec (modify (with_logs_panel [])) a)) with (selected_pod a).
  destruct (selected_pod a) as [pod|]; [rewrite H|]; reflexivity.
Qed.




(** ** The refresh action *)

Lemma action_refresh_panels (a : LazyK8sApp) :
  let a' := exec action_refresh a in
  pods a' = listed_pods (core_v1 (k8s_client a)) (namespace (k8s_client a))
  /\ pods_list a' = map new_PodItem (pods a')
  /\ containers_list a' =
       match selected_pod a with
       | Some _ => containers_of_selection a
       | None => containers_list a
       end
  /\ info_panel a' =
       match selected_pod a with
       | Some _ => shown_info a
       | None => info_panel a
       end
  /\ logs_panel a' =
       match selected_pod a with
       | Some _ => shown_logs a
       | None => logs_panel a
       end.
Proof.
  cbv zeta.
  assert (Hpods : pods (exec action_refresh a)
                  = listed_pods (core_v1 (k8s_client a)) (namespace (k8s_client a))).
  { rewrite (action_refresh_after_refresh_pods pods) by reflexivity.
    apply refresh_pods_listed. }
  split; [exact Hpods|]. split.
  { rewrite Hpods, (action_refresh_after_refresh_pods pods_list) by reflexivity.
    apply refresh_pods_pods_list. }
  destruct (selected_pod a) as [pod|] eqn:Hp.
  - rewrite (action_refresh_selected a pod Hp).
    pose proof (refresh_pods_keeps_selected_pod a) as Ep.
    pose proof (refresh_pods_keeps_selected_container a) as Ec.
    set (x := exec refresh_pods a) in *.
    split; [|split].
    + rewrite (show_pod_logs_keeps containers_list),
        (show_pod_info_keeps containers_list) by reflexivity.
      rewrite refresh_containers_list. apply containers_of_selection_kept. exact Ep.
    + rewrite (show_pod_logs_keeps info_panel) by reflexivity.
      rewrite show_pod_info_panel. apply shown_info_same.
      rewrite (refresh_containers_keeps selected_pod) by reflexivity. exact Ep.
    + rewrite show_pod_logs_shown. apply shown_logs_same.
      * rewrite (show_pod_info_keeps selected_pod),
          (refresh_containers_keeps selected_pod) by reflexivity. exact Ep.
      * rewrite (show_pod_info_keeps selected_container),
          (refresh_containers_keeps selected_container) by reflexivity. exact Ec.
      * rewrite (show_pod_info_keeps (fun x => core_v1 (k8s_client x))),
          (refresh_containers_keeps (fun x => core_v1 (k8s_client x))) by reflexivity.
        apply (refresh_pods_blind core_v1). intros c l. reflexivity.
      * rewrite (show_pod_info_keeps (fun x => namespace (k8s_client x))),
          (refresh_containers_keeps (fun x => namespace (k8s_client x))) by reflexivity.
        apply (refresh_pods_blind namespace). intros c l. reflexivity.
  - rewrite (action_refresh_unselected a Hp). split; [|split].
    + apply (refresh_pods_keeps containers_list); reflexivity.
    + apply (refresh_pods_keeps info_panel); reflexivity.
    + apply (refresh_pods_keeps logs_panel); reflexivity.
Qed.


(** X15. On a cluster whose answers do not change, refreshing twice in a
    row shows what refreshing once shows: the second refresh leaves the
    cached pods, the pod list, the container list, the info panel, the log
    panel, the status bar and the selection as the first one left them. *)
Theorem refresh_twice_is_refresh_once (a : LazyK8sApp) :
  let a1 := exec action_refresh a in
  let a2 := exec action_refresh a1 in
  pods a2 = pods a1
  /\ pods_list a2 = pods_list a1
  /\ containers_list a2 = containers_list a1
  /\ info_panel a2 = info_panel a1
  /\ logs_panel a2 = logs_panel a1
  /\ status_bar a2 = status_bar a1
  /\ selected_pod a2 = selected_pod a1
  /\ selected_container a2 = selected_container a1.
Proof.
  cbv zeta.
  pose proof (action_refresh_keeps_selected_pod a) as Ep.
  pose proof (action_refresh_keeps_selected_container a) as Ec.
  assert (Ev : core_v1 (k8s_client (exec action_refresh a)) = core_v1 (k8s_client a)).
  { apply (perform_blind core_v1 (fun c l => eq_refl) Refresh). }
  assert (En : namespace (k8s_client (exec action_refresh a)) = namespace (k8s_client a)).
  { apply (perform_blind namespace (fun c l => eq_refl) Refresh). }
  destruct (action_refresh_panels a) as [H1 [H2 [H3 [H4 H5]]]].
  destruct (action_refresh_panels (exec action_refresh a)) as [K1 [K2 [K3 [K4 K5]]]].
  set (a1 := exec action_refresh a) in *.
  assert (Kp : pods (exec action_refresh a1) = pods a1).
  { rewrite K1, H1, Ev, En. reflexivity. }
  split; [exact Kp|]. split; [rewrite K2, Kp, H2; reflexivity|].
  split; [|split; [|split; [|split; [|split]]]].
  - rewrite K3, Ep. destruct (selected_pod a) as [pod|] eqn:Hp; [|reflexivity].
    rewrite H3. apply containers_of_selection_kept. congruence.
  - rewrite K4, Ep. destruct (selected_pod a) as [pod|] eqn:Hp; [|reflexivity].
    rewrite H4. apply shown_info_same. congruence.
  - rewrite K5, Ep. destruct (selected_pod a) as [pod|] eqn:Hp; [|reflexivity].
    rewrite H5. apply shown_logs_same; congruence.
  - rewrite (action_refresh_after_refresh_pods status_bar) by reflexivity.
    apply (refresh_pods_keeps status_bar); reflexivity.
  - apply action_refresh_keeps_selected_pod.
  - apply action_refresh_keeps_selected_container.
Qed.

(** ** The status bar and the namespace *)

Lemma get_cluster_info_eval (c : K8sClient) :
  eval get_cluster_info c =
  Returned match active_context_cluster (core_v1 c), git_version (core_v1 c) with
           | Returned active, Returned version =>
               (match active with Some cluster_name => cluster_name | None => "unknown" end,
                version)
           | _, _ => ("unknown", "unknown")
           end.
Proof.
  unfold eval, get_cluster_info, try_except, bind, call, ret.
  destruct (active_context_cluster (core_v1 c));
    [destruct (git_version (core_v1 c))|]; reflexivity.
Qed.

Lemma refresh_status_bar_text (a : LazyK8sApp) :
  status_bar (exec refresh_status_bar a) =
  "[b]lazyk8s[/] [dim]" ++ shown_version (core_v1 (k8s_client a))
  ++ "[/]  [cyan]●[/] " ++ namespace (k8s_client a).
Proof.
  unfold refresh_status_bar.
  rewrite (exec_bind _ _ _ _ (eq_trans (client_eval _ _) (get_cluster_info_eval _))).
  pose proof (get_cluster_info_blind namespace (fun c l => eq_refl) (k8s_client a)) as Hn.
  assert (E : eval (client get_current_namespace) (exec (client get_cluster_info) a)
              = Returned (namespace (k8s_client a))).
  { rewrite client_eval. unfold eval, get_current_namespace, gets. simpl. f_equal.
    rewrite <- Hn. unfold exec, client, zoom.
    destruct (get_cluster_info (k8s_client a)) as [r c']. reflexivity. }
  rewrite (exec_bind _ _ _ _ E).
  unfold status_bar_update, exec, modify. simpl. unfold shown_version.
  destruct (active_context_cluster (core_v1 (k8s_client a)));
    [destruct (git_version (core_v1 (k8s_client a)))|]; reflexivity.
Qed.

(** X16. [get_cluster_info] never raises. It returns the cluster of the
    active context (or [unknown] when there is none) with the server's
    version when both lookups succeed, and the pair [unknown], [unknown]
    as soon as one of them fails: a version that cannot be read also hides
    a cluster name that was read. A failure adds one record to the log; a
    success adds none. *)
Theorem cluster_info_or_unknown (c : K8sClient) :
  eval get_cluster_info c =
    Returned match active_context_cluster (core_v1 c), git_version (core_v1 c) with
             | Returned active, Returned version =>
                 (match active with Some cluster_name => cluster_name | None => "unknown" end,
                  version)
             | _, _ => ("unknown", "unknown")
             end
  /\ logger (exec get_cluster_info c) =
       match active_context_cluster (core_v1 c), git_version (core_v1 c) with
       | Returned _, Returned _ => logger c
       | Returned _, Raised e | Raised e, _ =>
           app (logger c) ["Failed to get cluster info: " ++ exc_text e]
       end
  /\ (forall cluster_name e,
        active_context_cluster (core_v1 c) = Returned (Some cluster_name) ->
        git_version (core_v1 c) = Raised e ->
        eval get_cluster_info c = Returned ("unknown", "unknown")).
Proof.
  split; [apply get_cluster_info_eval|]. split.
  - unfold exec, get_cluster_info, try_except, bind, call, ret.
    destruct (active_context_cluster (core_v1 c));
      [destruct (git_version (core_v1 c))|]; reflexivity.
  - intros n e Ha Hv. rewrite get_cluster_info_eval, Ha, Hv. reflexivity.
Qed.

(** X17. The status bar shows the server's version, or [unknown] when the
    cluster information cannot be read, followed by the client's current
    namespace; so after the namespace is set on the client, the
    change-namespace action makes the status bar show the new namespace. *)
Theorem status_bar_shows_namespace (ns : string) (a : LazyK8sApp) :
  status_bar (exec refresh_status_bar a) =
    "[b]lazyk8s[/] [dim]" ++ shown_version (core_v1 (k8s_client a))
    ++ "[/]  [cyan]●[/] " ++ namespace (k8s_client a)
  /\ status_bar (exec action_change_namespace (exec (client (set_namespace ns)) a)) =
       "[b]lazyk8s[/] [dim]" ++ shown_version (core_v1 (k8s_client a))
       ++ "[/]  [cyan]●[/] " ++ ns
  /\ (forall e, git_version (core_v1 (k8s_client a)) = Raised e ->
        status_bar (exec refresh_status_bar a) =
        "[b]lazyk8s[/] [dim]unknown[/]  [cyan]●[/] " ++ namespace (k8s_client a)).
Proof.
  split; [apply refresh_status_bar_text|]. split.
  - unfold action_change_namespace. rewrite refresh_status_bar_text. reflexivity.
  - intros e He. rewrite refresh_status_bar_text. unfold shown_version. rewrite He.
    destruct (active_context_cluster (core_v1 (k8s_client a))); reflexivity.
Qed.

(** X18. The namespace set on the client is the one it reports and the one
    its later calls go to: after [set_namespace ns], the current namespace
    is [ns], the pods listed are those of [ns], and a pod or its logs are
    read in [ns]. Any string is accepted, the cluster is not asked, the
    cached namespace list stays, and of two namespaces set in a row the
    last one counts. *)
Theorem set_namespace_retargets (ns : string) (c : K8sClient) :
  let c' := exec (set_namespace ns) c in
  eval (set_namespace ns) c = Returned tt
  /\ eval get_current_namespace c' = Returned ns
  /\ eval get_pods c' = Returned (listed_pods (core_v1 c) ns)
  /\ (forall pod_name container lines,
        eval (get_pod_logs pod_name container lines) c' =
        Returned (log_text (core_v1 c)
                    {| req_name := pod_name; req_namespace := ns;
                       req_container := container; req_follow := None;
                       req_tail_lines := Some lines |}))
  /\ (forall pod_name,
        eval (get_pod pod_name) c' =
        Returned match read_namespaced_pod (core_v1 c) pod_name ns with
                 | Returned pod => Some pod
                 | Raised _ => None
                 end)
  /\ eval get_namespaces c' = eval get_namespaces c
  /\ logger c' = logger c
  /\ (forall ns0, exec (set_namespace ns) (exec (set_namespace ns0) c) = c').
Proof.
  cbv zeta. split; [reflexivity|]. split; [reflexivity|].
  split; [apply get_pods_eval|]. split; [intros; apply get_pod_logs_eval|].
  split; [|repeat split].
  intros pod_name. unfold eval, get_pod, try_except, bind, call, ret. simpl.
  destruct (read_namespaced_pod (core_v1 c) pod_name ns); reflexivity.
Qed.

(** ** The namespace search, again *)

Lemma ci_occurs_refl (s : string) : ci_occurs s s.
Proof. exists "", s, "". rewrite append_nil_r. split; reflexivity. Qed.

Lemma ci_occurs_trans (q1 q2 s : string) :
  ci_occurs q1 q2 -> ci_occurs q2 s -> ci_occurs q1 s.
Proof.
  unfold ci_occurs, ci_eq, Py.lower.
  intros [p [m [t [E1 H1]]]] [p' [m' [t' [E2 H2]]]].
  rewrite E1, !map_chars_app in H2.
  destruct (map_chars_split _ _ _ _ H2) as [x [r [Ex [Hx Hr]]]].
  destruct (map_chars_split _ _ _ _ Hr) as [y [z [Ey [Hy Hz]]]].
  exists (p' ++ x), y, (z ++ t'). split.
  - rewrite E2, Ex, Ey, !append_assoc. reflexivity.
  - rewrite Hy. exact H1.
Qed.

Lemma ci_occursb_case (q s : string) :
  ci_occursb (Py.upper q) s = ci_occursb q s
  /\ ci_occursb (Py.lower q) s = ci_occursb q s
  /\ ci_occursb q (Py.upper s) = ci_occursb q s.
Proof.
  unfold ci_occursb. rewrite !lower_upper.
  replace (Py.lower (Py.lower q)) with (Py.lower q); [repeat split|].
  rewrite <- (lower_upper (Py.lower q)), upper_lower, lower_upper. reflexivity.
Qed.

Lemma truthy_map_chars (f : ascii -> ascii) (s : string) :
  Py.truthy (Py.map_chars f s) = Py.truthy s.
Proof. destruct s; reflexivity. Qed.

Lemma fuzzy_eval (q : string) (c : K8sClient) :
  eval (fuzzy_search_namespaces q) c = Returned (filter (ci_occursb q) (_namespace_list c)).
Proof.
  destruct q as [|ch q]; [|reflexivity].
  unfold eval, fuzzy_search_namespaces, bind, get, ret; simpl. f_equal.
  induction (_namespace_list c) as [|ns l IH]; [reflexivity|].
  simpl filter. rewrite ci_occursb_empty. f_equal. exact IH.
Qed.


(** ** Opening a shell, again *)

Lemma try_shells_console run ns pod_name container candidates : forall a,
  console (exec (try_shells run ns pod_name container candidates) a) =
  (console a
   ++ map Run (map (shell_argv ns pod_name container)
                   (up_to_first (succeeds run ns pod_name container) candidates)))%list.
Proof.
  induction candidates as [|shell rest IH]; intros a; simpl.
  - unfold exec, ret; simpl. rewrite app_nil_r. reflexivity.
  - rewrite (exec_bind _ _ _ tt) by reflexivity.
    unfold succeeds at 1.
    destruct (run (shell_argv ns pod_name container shell)) as [rc|];
      [destruct (rc =? 0)%Z|]; simpl.
    + reflexivity.
    + rewrite IH. unfold exec at 1; simpl. rewrite <- app_assoc. reflexivity.
    + rewrite IH. unfold exec at 1; simpl. rewrite <- app_assoc. reflexivity.
Qed.

Lemma console_event_console (e : ConsoleEvent) (a : LazyK8sApp) :
  console (exec (console_event e) a) = (console a ++ [e])%list.
Proof. reflexivity. Qed.

Lemma up_to_first_length {A} (p : A -> bool) (l : list A) :
  (List.length (up_to_first p l) <= List.length l)%nat
  /\ (l <> [] -> up_to_first p l <> []).
Proof.
  split.
  - induction l as [|x l IH]; simpl; [lia|]. destruct (p x); simpl; lia.
  - destruct l as [|x l]; [contradiction|]. intros _. simpl.
    destruct (p x); discriminate.
Qed.

(** X20. Without a pod selected, or with a selected pod that has no
    container, the shell action does nothing at all: no command is run,
    nothing is printed, the pod list is not refreshed and the state is the
    one before. *)
Theorem open_shell_needs_a_container
    (run : list string -> RunOutcome) (a : LazyK8sApp) :
  match selected_pod a with
  | Some pod => get_container_names pod = []
  | None => True
  end ->
  exec (action_open_shell run) a = a
  /\ eval (action_open_shell run) a = Returned tt
  /\ commands_run (console (exec (action_open_shell run) a)) = commands_run (console a).
Proof.
  intros H. unfold exec, eval. rewrite (action_open_shell_idle run a H).
  repeat split.
Qed.

Lemma open_shell_needs_a_container_sample :
  selected_pod (new_LazyK8sApp (Sample.client_on Sample.busy)) = None
  /\ exec (action_open_shell Sample.only_sh) (new_LazyK8sApp (Sample.client_on Sample.busy))
     = new_LazyK8sApp (Sample.client_on Sample.busy).
Proof.
  split; [reflexivity|].
  exact (proj1 (open_shell_needs_a_container Sample.only_sh
                  (new_LazyK8sApp (Sample.client_on Sample.busy)) I)).
Defined.

(** X21. With a pod selected that has a container, the shell action leaves
    on the console, in this order: the line announcing the shell with the
    namespace, the pod and the container; one [kubectl exec] per candidate
    tried, at least one and at most three; the prompt to press Enter. It
    then reloads the pod list from the cluster. The container is the
    selected one, or the pod's first container when none is selected. *)
Theorem open_shell_console
    (run : list string -> RunOutcome) (a : LazyK8sApp) (pod : V1Pod) (first : string)
    (rest : list string) :
  selected_pod a = Some pod ->
  get_container_names pod = first :: rest ->
  let a' := exec (action_open_shell run) a in
  let ns := namespace (k8s_client a) in
  let pod_name := name (metadata pod) in
  let container := Py.or_else (selected_container a) first in
  let tried := up_to_first (succeeds run ns pod_name container) shells in
  console a' =
    (console a
     ++ Print (Py.NL ++ "● Opening shell: " ++ ns ++ "/" ++ pod_name ++ "/"
               ++ container ++ Py.NL)
        :: map Run (map (shell_argv ns pod_name container) tried)
     ++ [Input (Py.NL ++ "Press Enter to return to lazyk8s...")])%list
  /\ (1 <= List.length tried <= 3)%nat
  /\ pods a' = listed_pods (core_v1 (k8s_client a)) ns
  /\ pods_list a' = map new_PodItem (pods a').
Proof.
  intros Hp Hc. cbv zeta.
  rewrite (action_open_shell_unfold run a pod first rest Hp Hc). cbv zeta.
  set (ns := namespace (k8s_client a)).
  set (container := Py.or_else (selected_container a) first).
  set (tried := up_to_first (succeeds run ns (name (metadata pod)) container) shells).
  split; [|split; [|split]].
  - rewrite (after_shell_keeps console) by reflexivity.
    rewrite console_event_console, try_shells_console, console_event_console.
    fold tried. rewrite <- !app_assoc. reflexivity.
  - destruct (up_to_first_length (succeeds run ns (name (metadata pod)) container) shells)
      as [Hle Hne].
    fold tried in Hle, Hne. simpl in Hle.
    destruct tried as [|s t]; [exfalso; apply Hne; [discriminate|reflexivity]|].
    simpl in *. lia.
  - set (b := exec (console_event _) _).
    assert (Hb : pods (exec (refresh_pods ;;
                             self' <- get ;;
                             match selected_pod self' with
                             | Some _ => show_pod_info ;; show_pod_logs
                             | None => ret tt
                             end) b)
                 = pods (exec refresh_pods b)).
    { rewrite exec_then by apply refresh_pods_returns. rewrite exec_get_bind.
      destruct (selected_pod (exec refresh_pods b)); [|reflexivity].
      rewrite exec_then by apply show_pod_info_returns.
      rewrite (show_pod_logs_keeps pods), (show_pod_info_keeps pods) by reflexivity.
      reflexivity. }
    rewrite Hb, refresh_pods_listed. subst b.
    rewrite (console_event_keeps (fun x => core_v1 (k8s_client x))) by reflexivity.
    rewrite (console_event_keeps (fun x => namespace (k8s_client x))) by reflexivity.
    rewrite (try_shells_keeps (fun x => core_v1 (k8s_client x))) by reflexivity.
    rewrite (try_shells_keeps (fun x => namespace (k8s_client x))) by reflexivity.
    rewrite (console_event_keeps (fun x => core_v1 (k8s_client x))) by reflexivity.
    rewrite (console_event_keeps (fun x => namespace (k8s_client x))) by reflexivity.
    reflexivity.
  - apply after_shell_pods_shown.
Qed.

Lemma open_shell_console_sample :
  selected_pod Sample.session = Some Sample.web1
  /\ get_container_names Sample.web1 = ["app"; "sidecar"]
  /\ List.length (console (exec (action_open_shell Sample.only_sh) Sample.session)) = 4%nat.
Proof.
  split; [reflexivity|]. split; [reflexivity|].
  rewrite (proj1 (open_shell_console Sample.only_sh Sample.session Sample.web1
                    "app" ["sidecar"] eq_refl eq_refl)).
  reflexivity.
Defined.

(** ** The client's other calls *)



(** ** Starting up *)

(** X24. A new client starts in the namespace [default] with the names of
    the cluster's namespaces, in the cluster's order, and an empty log; it
    cannot be built when the namespaces cannot be listed: the constructor
    raises the API's exception. An application built on a new client has
    nothing selected and nothing cached, and mounting it loads the pods of
    [default]. *)
Theorem new_client_starts_in_default (api : CoreV1Api) :
  fst (new_K8sClient api) =
    match list_namespace api with
    | Returned l =>
        Returned {| namespace := "default";
                    _namespace_list := map (fun ns => name (ns_metadata ns)) l;
                    core_v1 := api; logger := [] |}
    | Raised e => Raised e
    end
  /\ (forall c, fst (new_K8sClient api) = Returned c ->
        let a := new_LazyK8sApp c in
        eval get_current_namespace c = Returned "default"
        /\ current_namespace a = "default"
        /\ selection a = (None, None)
        /\ pods a = []
        /\ pods (exec on_mount a) = listed_pods api "default"
        /\ selection (exec on_mount a) = (None, None)).
Proof.
  assert (E : fst (new_K8sClient api) =
              match list_namespace api with
              | Returned l =>
                  Returned {| namespace := "default";
                              _namespace_list := map (fun ns => name (ns_metadata ns)) l;
                              core_v1 := api; logger := [] |}
              | Raised e => Raised e
              end).
  { unfold new_K8sClient, _refresh_namespaces, try_except, bind, call, get, ret; simpl.
    destruct (list_namespace api); reflexivity. }
  split; [exact E|]. intros c Hc. rewrite E in Hc.
  destruct (list_namespace api) as [l|e]; [|discriminate Hc].
  injection Hc as <-. cbv zeta.
  split; [reflexivity|]. split; [reflexivity|]. split; [reflexivity|].
  split; [reflexivity|]. split.
  - unfold on_mount. rewrite exec_then by apply refresh_status_bar_returns.
    rewrite refresh_pods_listed.
    rewrite (refresh_status_bar_blind core_v1), (refresh_status_bar_blind namespace);
      try (intros c l'; reflexivity).
    reflexivity.
  - unfold selection.
    rewrite (on_mount_keeps selected_pod), (on_mount_keeps selected_container)
      by reflexivity.
    reflexivity.
Qed.

(** ** The colour of a log line *)

Lemma contains_longer (sub more s : string) :
  Py.contains (sub ++ more) s = true -> Py.contains sub s = true.
Proof.
  rewrite !contains_iff. intros [pre [post H]].
  exists pre, (more ++ post). rewrite H, append_assoc. reflexivity.
Qed.

Lemma classify_case (line : string) : classify (Py.upper line) = classify line.
Proof.
  unfold classify.
  rewrite !(proj2 (proj2 (ci_occursb_case _ line))). reflexivity.
Qed.

Lemma ci_occurs_inside (token pre line post : string) :
  ci_occurs token line -> ci_occurs token (pre ++ line ++ post).
Proof.
  intros [p [m [t [E H]]]]. exists (pre ++ p), m, (t ++ post). split; [|exact H].
  rewrite E, !append_assoc. reflexivity.
Qed.


(** ** The info panel *)

(** X26. Showing the pod information replaces what the info panel held.
    With no pod selected the panel reads [no pod selected]. With a pod it
    holds the pod's name, a line with its node and address ([n/a] for one
    that is absent or empty), an empty line, and then two lines per
    container, its name and its image, in declared order: three lines plus
    two per container. Nothing but the info panel changes. *)
Theorem info_panel_shows_pod (a : LazyK8sApp) :
  info_panel (exec show_pod_info a) =
    match selected_pod a with
    | Some pod => Py.join Py.NL (info_lines pod)
    | None => "[dim]no pod selected[/]"
    end
  /\ (forall old, info_panel (exec show_pod_info (with_info_panel old a))
                  = info_panel (exec show_pod_info a))
  /\ (forall pod,
        List.length (info_lines pod) = (3 + 2 * List.length (containers (spec pod)))%nat
        /\ nth 0 (info_lines pod) "" = "[b]" ++ name (metadata pod) ++ "[/]"
        /\ nth 1 (info_lines pod) "" =
             "[dim]node:[/] "
             ++ match node_name (spec pod) with
                | Some (String ch s) => String ch s
                | _ => "n/a"
                end
             ++ "  [dim]ip:[/] "
             ++ match pod_ip (status pod) with
                | Some (String ch s) => String ch s
                | _ => "n/a"
                end)
  /\ (forall i pod c,
        nth_error (containers (spec pod)) i = Some c ->
        nth_error (info_lines pod) (3 + 2 * i) = Some ("[cyan]●[/] " ++ container_name c)
        /\ nth_error (info_lines pod) (4 + 2 * i) = Some ("  [dim]" ++ image c ++ "[/]"))
  /\ k8s_client (exec show_pod_info a) = k8s_client a
  /\ selection (exec show_pod_info a) = selection a
  /\ logs_panel (exec show_pod_info a) = logs_panel a
  /\ containers_list (exec show_pod_info a) = containers_list a.
Proof.
  split; [apply show_pod_info_panel|].
  split; [intros old; rewrite !show_pod_info_panel; reflexivity|].
  split; [|split; [|split; [|split; [|split]]]].
  - intros pod. unfold info_lines. split; [|split].
    + rewrite length_app. simpl List.length. f_equal.
      induction (containers (spec pod)) as [|c l IH]; [reflexivity|].
      simpl. rewrite IH. lia.
    + reflexivity.
    + simpl. destruct (node_name (spec pod)) as [[|ch s]|];
        destruct (pod_ip (status pod)) as [[|ch' s']|]; reflexivity.
  - intros i pod c. unfold info_lines.
    generalize (containers (spec pod)) as l. intros l. revert i.
    induction l as [|c0 l IH]; intros i Hi.
    + destruct i; discriminate Hi.
    + destruct i as [|i].
      * injection Hi as ->. split; reflexivity.
      * simpl in Hi. destruct (IH i Hi) as [H1 H2].
        replace (3 + 2 * S i)%nat with (S (S (3 + 2 * i))) by lia.
        replace (4 + 2 * S i)%nat with (S (S (4 + 2 * i))) by lia.
        split; [exact H1|exact H2].
  - apply (show_pod_info_keeps k8s_client). reflexivity.
  - unfold selection.
    rewrite (show_pod_info_keeps selected_pod), (show_pod_info_keeps selected_container)
      by reflexivity.
    reflexivity.
  - apply (show_pod_info_keeps logs_panel). reflexivity.
  - apply (show_pod_info_keeps containers_list). reflexivity.
Qed.

(** ** Choosing from what the lists show *)

Lemma reachable_pods_shown (a : LazyK8sApp) : reachable a -> pods_shown a.
Proof.
  induction 1 as [c | a act Hr IH Ho].
  - reflexivity.
  - apply perform_pods_shown. exact IH.
Qed.

(** X27. In every state the application can be in, an item of the pod list
    stands for a pod of the cache, so the pod that becomes selected when
    the user chooses from the list is, at that moment, a cached pod; the
    item's label is the pod's bullet followed by its name. *)
Theorem chosen_pod_is_cached (a : LazyK8sApp) (i : ListItem) :
  reachable a ->
  In i (pods_list a) ->
  exists pod,
    i = PodItem pod (pod_icon pod ++ " " ++ name (metadata pod))
    /\ In pod (pods a)
    /\ pod_listed (name (metadata pod)) (pods a) = true
    /\ selected_pod (exec (on_list_view_selected (pods_list_event i)) a) = Some pod.
Proof.
  intros Hr Hin. rewrite (reachable_pods_shown a Hr) in Hin.
  apply in_map_iff in Hin. destruct Hin as [pod [<- Hin]].
  exists pod. split; [reflexivity|]. split; [exact Hin|]. split.
  - unfold pod_listed. apply existsb_exists. exists pod.
    split; [exact Hin|apply String.eqb_refl].
  - unfold new_PodItem. rewrite select_pod_exec.
    rewrite (show_pod_logs_keeps selected_pod), (show_pod_info_keeps selected_pod),
      (refresh_containers_keeps selected_pod) by reflexivity.
    reflexivity.
Qed.

Lemma chosen_pod_is_cached_sample :
  reachable Sample.session
  /\ In (new_PodItem Sample.web1) (pods_list Sample.session)
  /\ exists pod,
       new_PodItem Sample.web1 = PodItem pod (pod_icon pod ++ " " ++ name (metadata pod))
       /\ In pod (pods Sample.session)
       /\ pod_listed (name (metadata pod)) (pods Sample.session) = true
       /\ selected_pod (exec (on_list_view_selected (pods_list_event (new_PodItem Sample.web1)))
                          Sample.session) = Some pod.
Proof.
  assert (H : In (new_PodItem Sample.web1) (pods_list Sample.session)).
  { left. reflexivity. }
  split; [exact session_reachable|]. split; [exact H|].
  exact (chosen_pod_is_cached Sample.session (new_PodItem Sample.web1) session_reachable H).
Defined.
